(** * discover_jenkins.runner: task resolution and lifecycle hook dispatch

    A shallow embedding of [discover_jenkins/runner.py].  The runner is a
    mixin over Django's test runner: everything it does is either a pure
    computation on strings and lists, or a call to a collaborator that
    lives outside the file (the import machinery, the wrapped runner, the
    task plugins, unittest's text runner, the XML result).  Calls to
    collaborators are modelled as events answered by an environment; the
    code of the file is modelled as programs in a small state-and-exception
    monad that records every such call together with its fate. *)

From Stdlib Require Import ZArith Ascii String.
From stdpp Require Import base gmap strings list.

Local Open Scope Z_scope.
Local Open Scope string_scope.
Local Open Scope list_scope.

(** ** Python values, exceptions and outcomes *)

Inductive Value :=
| VNone
| VBool (b : bool)
| VInt (z : Z)
| VStr (s : string)
| VObj (id : nat).

(** [**kwargs] and [**options]: keyword dictionaries, kept in call order. *)
Definition Kwargs := list (string * Value).

Inductive Exn :=
| ImproperlyConfigured (msg : string)
| ImportError (msg : string)
| AttributeError (msg : string)
| ValueError (msg : string)
| OtherException (cls msg : string).

(** [str(e)], as used by the [%s] conversion. *)
Definition str_exn (e : Exn) : string :=
  match e with
  | ImproperlyConfigured msg | ImportError msg | AttributeError msg
  | ValueError msg | OtherException _ msg => msg
  end.

Inductive Outcome (A : Type) :=
| Ok (a : A)
| Raise (e : Exn).
Arguments Ok {A} a.
Arguments Raise {A} e.

(** The double quote character of the messages. *)
Definition dq : string := String "034"%char EmptyString.

(** ** [str.rsplit(sep, 1)] and tuple unpacking *)

(** [rsplit_last sep s] finds the last [sep] of [s]; [None] without one. *)
Fixpoint rsplit_last (sep : ascii) (s : string) : option (string * string) :=
  match s with
  | EmptyString => None
  | String c rest =>
      match rsplit_last sep rest with
      | Some (before, after) => Some (String c before, after)
      | None => if Ascii.eqb c sep then Some (EmptyString, rest) else None
      end
  end.

(** [s.rsplit(sep, 1)]: a list of one or two strings. *)
Definition rsplit1 (sep : ascii) (s : string) : list string :=
  match rsplit_last sep s with
  | Some (before, after) => [before; after]
  | None => [s]
  end.

(** [a, b = xs]: a [ValueError] unless [xs] has exactly two items. *)
Definition unpack2 {A : Type} (xs : list A) : Outcome (A * A) :=
  match xs with
  | [a; b] => Ok (a, b)
  | [] | [_] => Raise (ValueError "not enough values to unpack")
  | _ => Raise (ValueError "too many values to unpack")
  end.

(** ** Command line options, task classes, task instances, modules *)

(** [optparse.make_option(flag, action=, dest=, default=, help=)]. *)
Record CliOption := make_option {
  opt_flag : string;
  opt_action : string;
  opt_dest : string;
  opt_default : Value;
  opt_help : string;
}.

(** What the runner looks at in a task class: the class attribute
    [option_list] (which a class may not define) and whether the class
    has an [add_arguments] attribute. *)
Record TaskClass := {
  cls_name : string;
  cls_option_list : option (list CliOption);
  cls_has_add_arguments : bool;
}.

(** A task instance: the object a task class returns when called.  The
    runner only asks which attributes it has. *)
Record Task := {
  task_id : nat;
  task_class : TaskClass;
  task_attrs : gset string;
}.

Definition hasattr (task : Task) (name : string) : bool :=
  bool_decide (name ∈ task_attrs task).

(** An imported module: its namespace maps names to the classes in it. *)
Record PyModule := {
  mod_name : string;
  mod_dict : gmap string TaskClass;
}.

(** [getattr(mod, name)] *)
Definition getattr_module (mod_ : PyModule) (name : string) : Outcome TaskClass :=
  match mod_dict mod_ !! name with
  | Some cls => Ok cls
  | None =>
      Raise (AttributeError
        ("module '" +:+ mod_name mod_ +:+ "' has no attribute '" +:+ name +:+ "'"))
  end.

(** [cls.option_list] *)
Definition getattr_option_list (cls : TaskClass) : Outcome (list CliOption) :=
  match cls_option_list cls with
  | Some opts => Ok opts
  | None =>
      Raise (AttributeError
        ("type object '" +:+ cls_name cls +:+ "' has no attribute 'option_list'"))
  end.

(** ** Calls to collaborators *)

Inductive Phase := SetupEnv | BeforeSuite | AfterSuite | TeardownEnv.

Definition hook_name (p : Phase) : string :=
  match p with
  | SetupEnv => "setup_test_environment"
  | BeforeSuite => "before_suite_run"
  | AfterSuite => "after_suite_run"
  | TeardownEnv => "teardown_test_environment"
  end.

(** Keyword arguments of [unittest.TextTestRunner(...)]. *)
Record TextTestRunner := {
  tr_buffer : bool;
  tr_resultclass : string;
  tr_verbosity : Z;
  tr_failfast : bool;
}.

(** What the wrapped runner's [__init__] leaves on [self] and this file
    reads back: [self.verbosity] and [self.failfast]. *)
Record BaseSettings := {
  base_verbosity : Z;
  base_failfast : bool;
}.

Inductive Call :=
| import_module (name : string)
| super_init (options : Kwargs)
| task_init (cls : TaskClass) (output_dir : option string) (options : Kwargs)
| discover_runner_add_arguments (parser : Value)
| task_add_arguments (cls : TaskClass) (parser : Value)
| parser_add_argument (parser : Value) (opt : CliOption)
| super_setup_test_environment (kwargs : Kwargs)
| super_run_suite (suite : Value) (kwargs : Kwargs)
| super_teardown_test_environment (kwargs : Kwargs)
| task_hook (p : Phase) (task : Task) (args : list Value) (kwargs : Kwargs)
| text_test_runner_run (runner : TextTestRunner) (suite : Value)
| dump_xml (result : Value) (output_dir : option string).

(** The type of what a call returns when it returns. *)
Definition Ret (c : Call) : Type :=
  match c with
  | import_module _ => PyModule
  | super_init _ => BaseSettings
  | task_init _ _ _ => Task
  | super_run_suite _ _ | text_test_runner_run _ _ => Value
  | _ => unit
  end.

(** A call in the trace, with the exception it raised if it raised. *)
Definition Event : Type := Call * option Exn.

Definition raised {A : Type} (o : Outcome A) : option Exn :=
  match o with Ok _ => None | Raise e => Some e end.

(** ** The monad of the runner's code *)

Section Monad.

(** The world outside the file. *)
Context {World : Type}.

Record State := {
  world : World;
  trace : list Event;   (* calls made so far, oldest first *)
  reads : list string;  (* attributes of [self] read so far *)
}.

Definition M (A : Type) : Type := State → Outcome A * State.

Definition ret {A} (a : A) : M A := λ s, (Ok a, s).

Definition raise {A} (e : Exn) : M A := λ s, (Raise e, s).

Definition bind {A B} (m : M A) (k : A → M B) : M B := λ s,
  match m s with
  | (Ok a, s') => k a s'
  | (Raise e, s') => (Raise e, s')
  end.

(** A pure computation that may raise. *)
Definition lift {A} (o : Outcome A) : M A := λ s, (o, s).

(** [try: m  except E: handler]; [except_ e] is [None] when no clause
    matches [e], which then propagates. *)
Definition try_except {A} (m : M A) (except_ : Exn → option (M A)) : M A := λ s,
  match m s with
  | (Ok a, s') => (Ok a, s')
  | (Raise e, s') =>
      match except_ e with
      | Some handler => handler s'
      | None => (Raise e, s')
      end
  end.

(** [self.name], where the attribute may be absent. *)
Definition read_attr {A} (name : string) (v : option A) : M A := λ s,
  let s' := {| world := world s; trace := trace s; reads := reads s ++ [name] |} in
  match v with
  | Some a => (Ok a, s')
  | None =>
      (Raise (AttributeError
         ("'CIRunner' object has no attribute '" +:+ name +:+ "'")), s')
  end.

End Monad.

Arguments State : clear implicits.
Arguments M : clear implicits.

Declare Scope py_scope.
Delimit Scope py_scope with py.
Notation "x <- m ;; k" := (bind m (λ x, k))
  (at level 20, m at level 99, k at level 200, only parsing) : py_scope.
Notation "' pat <- m ;; k" := (bind m (λ pat, k))
  (at level 20, pat pattern, m at level 99, k at level 200, only parsing)
  : py_scope.
Notation "m ;; k" := (bind m (λ _, k))
  (at level 100, k at level 200, only parsing, right associativity) : py_scope.
Local Open Scope py_scope.

(** [for x in xs: body] *)
Fixpoint for_ {World A} (xs : list A) (body : A → M World unit) : M World unit :=
  match xs with
  | [] => ret tt
  | x :: rest => body x ;; for_ rest body
  end.

(** Lexicographic [<] on tuples of integers. *)
Fixpoint tuple_lt (a b : list Z) : bool :=
  match a, b with
  | _, [] => false
  | [], _ :: _ => true
  | x :: a', y :: b' =>
      if Z.ltb x y then true else if Z.ltb y x then false else tuple_lt a' b'
  end.

(** ** The runner object *)

(** The attributes of [self].  [verbosity] and [failfast] belong to the
    wrapped runner; [jenkins] is always set by [__init__]; [output_dir] and
    [tasks] exist only once assigned ([None]: no such attribute). *)
Record Runner := {
  verbosity : Z;
  failfast : bool;
  jenkins : bool;
  output_dir : option (option string);
  tasks : option (list Task);
}.

Definition set_output_dir (self : Runner) (v : option string) : Runner :=
  {| verbosity := verbosity self; failfast := failfast self;
     jenkins := jenkins self; output_dir := Some v; tasks := tasks self |}.

Definition set_tasks (self : Runner) (v : list Task) : Runner :=
  {| verbosity := verbosity self; failfast := failfast self;
     jenkins := jenkins self; output_dir := output_dir self; tasks := Some v |}.

(** The two options of the runner itself, written once as [make_option]
    calls (lines 53-66) and once as [parser.add_argument] calls (lines
    92-97) with the same arguments. *)
Definition jenkins_flag : CliOption :=
  make_option "--jenkins" "store_true" "jenkins" (VBool false)
    "Process the Jenkins tasks from TEST_JENKINS_TASKS.".

Definition output_dir_flag (OUTPUT_DIR : string) : CliOption :=
  make_option "--output-dir" "store" "output_dir" (VStr OUTPUT_DIR)
    "Top level of project for unittest discovery.".

(** ** The code of runner.py *)

Section Functions.

Context {World : Type}.

(** How the world answers calls. *)
Context (env : ∀ c : Call, World → Outcome (Ret c) * World).

(** [discover_jenkins.settings.TASKS]. *)
Context (TASKS : list string).

Local Abbreviation M := (M World).

(** A call to a collaborator: the environment answers, the trace grows. *)
Definition call (c : Call) : M (Ret c) := λ s,
  let '(o, w) := env c (world s) in
  (o, {| world := w; trace := trace s ++ [(c, raised o)]; reads := reads s |}).

(** The body of the loop of [get_tasks], lines 17-30. *)
Definition resolve_task (task_path : string) : M TaskClass :=
  '(module, classname) <-
    try_except (lift (unpack2 (rsplit1 "." task_path)))
      (λ e, match e with
            | ValueError _ =>
                Some (raise (ImproperlyConfigured
                               (task_path +:+ " isn't a task module")))
            | _ => None
            end) ;;
  mod_ <-
    try_except (call (import_module module))
      (λ e, match e with
            | ImportError _ =>
                Some (raise (ImproperlyConfigured
                  ("Error importing task " +:+ module +:+ ": "
                   +:+ dq +:+ str_exn e +:+ dq)))
            | _ => None
            end) ;;
  try_except (lift (getattr_module mod_ classname))
    (λ e, match e with
          | AttributeError _ =>
              Some (raise (ImproperlyConfigured
                ("Task module " +:+ dq +:+ module +:+ dq
                 +:+ " does not define a " +:+ dq +:+ classname +:+ dq
                 +:+ " class")))
          | _ => None
          end).

(** [for task_path in ...: ...; task_classes.append(task_class)] *)
Fixpoint get_tasks_loop (paths : list string) (task_classes : list TaskClass)
  : M (list TaskClass) :=
  match paths with
  | [] => ret task_classes
  | task_path :: rest =>
      task_class <- resolve_task task_path ;;
      get_tasks_loop rest (task_classes ++ [task_class])
  end.

Definition get_tasks : M (list TaskClass) := get_tasks_loop TASKS [].

(** [for cls in task_classes: options += cls.option_list] *)
Fixpoint get_task_options_loop (task_classes : list TaskClass)
    (options : list CliOption) : M (list CliOption) :=
  match task_classes with
  | [] => ret options
  | cls :: rest =>
      option_list <- lift (getattr_option_list cls) ;;
      get_task_options_loop rest (options ++ option_list)
  end.

Definition get_task_options : M (list CliOption) :=
  task_classes <- get_tasks ;;
  get_task_options_loop task_classes [].

End Functions.

(** [class CIRunner(object)] *)
Module CIRunner.
Section Class.

Context {World : Type}.
Context (env : ∀ c : Call, World → Outcome (Ret c) * World).

(** [TASKS] and [OUTPUT_DIR] of [discover_jenkins.settings], and
    [django.VERSION] (its leading numeric components). *)
Context (TASKS : list string) (OUTPUT_DIR : string) (django_VERSION : list Z).

Local Abbreviation M := (M World).

(** The class body: the class attribute [option_list], which exists only
    under Django before 1.8. *)
Definition option_list : M (option (list CliOption)) :=
  if tuple_lt django_VERSION [1; 8] then
    options <- get_task_options env TASKS ;;
    ret (Some (options ++ [jenkins_flag; output_dir_flag OUTPUT_DIR]))
  else ret None.

(** [for task_class in task_classes: ...; self.tasks.append(instance)] *)
Fixpoint instantiate (task_classes : list TaskClass) (out : option string)
    (options : Kwargs) (self : Runner) : M Runner :=
  match task_classes with
  | [] => ret self
  | task_class :: rest =>
      instance <- call env (task_init task_class out options) ;;
      ts <- read_attr "tasks" (tasks self) ;;
      instantiate rest out options (set_tasks self (ts ++ [instance]))
  end.

(** [__init__(self, jenkins=False, output_dir=None, **options)] *)
Definition __init__ (jenkins_ : bool) (out : option string) (options : Kwargs)
  : M Runner :=
  base <- call env (super_init options) ;;
  let self := {| verbosity := base_verbosity base;
                 failfast := base_failfast base;
                 jenkins := jenkins_; output_dir := None; tasks := None |} in
  j <- read_attr "jenkins" (Some (jenkins self)) ;;
  if j : bool then
    let self := set_output_dir self out in
    task_classes <- get_tasks env TASKS ;;
    let self := set_tasks self [] in
    instantiate task_classes out options self
  else ret self.

Definition add_arguments (parser : Value) : M unit :=
  task_classes <- get_tasks env TASKS ;;
  for_ task_classes (λ task_cls,
    if cls_has_add_arguments task_cls
    then call env (task_add_arguments task_cls parser)
    else ret tt) ;;
  call env (parser_add_argument parser jenkins_flag) ;;
  call env (parser_add_argument parser (output_dir_flag OUTPUT_DIR)).

Definition setup_test_environment (self : Runner) (kwargs : Kwargs) : M unit :=
  call env (super_setup_test_environment kwargs) ;;
  j <- read_attr "jenkins" (Some (jenkins self)) ;;
  if j : bool then
    ts <- read_attr "tasks" (tasks self) ;;
    for_ ts (λ task,
      if hasattr task "setup_test_environment"
      then call env (task_hook SetupEnv task [] kwargs)
      else ret tt)
  else ret tt.

Definition run_suite (self : Runner) (suite : Value) (kwargs : Kwargs)
  : M Value :=
  j <- read_attr "jenkins" (Some (jenkins self)) ;;
  if j : bool then
    ts <- read_attr "tasks" (tasks self) ;;
    for_ ts (λ task,
      if hasattr task "before_suite_run"
      then call env (task_hook BeforeSuite task [suite] kwargs)
      else ret tt) ;;
    (* Use the XMLTestResult so that results can be saved as XML *)
    v <- read_attr "verbosity" (Some (verbosity self)) ;;
    f <- read_attr "failfast" (Some (failfast self)) ;;
    result <- call env (text_test_runner_run
                          {| tr_buffer := true;
                             tr_resultclass := "XMLTestResult";
                             tr_verbosity := v; tr_failfast := f |} suite) ;;
    (* Dump the results to an XML file *)
    out <- read_attr "output_dir" (output_dir self) ;;
    call env (dump_xml result out) ;;
    ts <- read_attr "tasks" (tasks self) ;;
    for_ ts (λ task,
      if hasattr task "after_suite_run"
      then call env (task_hook AfterSuite task [suite] kwargs)
      else ret tt) ;;
    ret result
  else
    (* If Jenkins is not enabled, just run the suite as normal *)
    call env (super_run_suite suite kwargs).

Definition teardown_test_environment (self : Runner) (kwargs : Kwargs)
  : M unit :=
  call env (super_teardown_test_environment kwargs) ;;
  j <- read_attr "jenkins" (Some (jenkins self)) ;;
  if j : bool then
    ts <- read_attr "tasks" (tasks self) ;;
    for_ ts (λ task,
      if hasattr task "teardown_test_environment"
      then call env (task_hook TeardownEnv task [] kwargs)
      else ret tt)
  else ret tt.

End Class.
End CIRunner.

(** [class DiscoverCIRunner(CIRunner, DiscoverRunner)] *)
Module DiscoverCIRunner.
Section Class.

Context {World : Type}.
Context (env : ∀ c : Call, World → Outcome (Ret c) * World).
Context (TASKS : list string) (OUTPUT_DIR : string) (django_VERSION : list Z).

(** [DiscoverRunner.option_list] and [CIRunner.option_list] as the class
    bodies before this one left them. *)
Context (DiscoverRunner_option_list : list CliOption).
Context (CIRunner_option_list : option (list CliOption)).

Definition option_list : M World (option (list CliOption)) :=
  if tuple_lt django_VERSION [1; 8] then
    ci_options <-
      lift (match CIRunner_option_list with
            | Some options => Ok options
            | None =>
                Raise (AttributeError
                  "type object 'CIRunner' has no attribute 'option_list'")
            end) ;;
    ret (Some (DiscoverRunner_option_list ++ ci_options))
  else ret None.

Definition add_arguments (parser : Value) : M World unit :=
  call env (discover_runner_add_arguments parser) ;;
  CIRunner.add_arguments env TASKS OUTPUT_DIR parser.

End Class.
End DiscoverCIRunner.

(** * Vocabulary of the properties

    What is said below about the code is said about the outcome it
    computes, the calls in its trace and the attribute names in its read
    log.  The definitions here name the recurring notions. *)

(** [needle in hay] for Python strings. *)
Definition contains (hay needle : string) : Prop :=
  ∃ before after, hay = before +:+ needle +:+ after.

(** Whether the separator occurs in a string at all. *)
Fixpoint has_sep (sep : ascii) (s : string) : bool :=
  match s with
  | EmptyString => false
  | String c rest => Ascii.eqb c sep || has_sep sep rest
  end.

Definition phase_eqb (p q : Phase) : bool :=
  match p, q with
  | SetupEnv, SetupEnv | BeforeSuite, BeforeSuite
  | AfterSuite, AfterSuite | TeardownEnv, TeardownEnv => true
  | _, _ => false
  end.

(** The tasks whose hook of phase [p] was called, in the order of the calls. *)
Definition hooked (p : Phase) (evs : list Event) : list Task :=
  flat_map (λ ev : Event,
    match ev.1 with
    | task_hook q task _ _ => if phase_eqb p q then [task] else []
    | _ => []
    end) evs.

(** The tasks of [ts] that have the hook of phase [p], in the order of [ts]. *)
Definition with_hook (p : Phase) (ts : list Task) : list Task :=
  List.filter (λ task, hasattr task (hook_name p)) ts.

(** The events of calling, without failure, the hook of each of [ts]. *)
Definition hook_events (p : Phase) (ts : list Task) (args : list Value)
    (kwargs : Kwargs) : list Event :=
  map (λ task, (task_hook p task args kwargs, None)) ts.

(** The text runner that [run_suite] builds, lines 113-118. *)
Definition xml_runner (self : Runner) : TextTestRunner :=
  {| tr_buffer := true; tr_resultclass := "XMLTestResult";
     tr_verbosity := verbosity self; tr_failfast := failfast self |}.

(** No call of [evs] raised. *)
Definition clean (evs : list Event) : Prop :=
  Forall (λ ev, ev.2 = None) evs.

Section Vocabulary.

Context {World : Type}.
Context (env : ∀ c : Call, World → Outcome (Ret c) * World).

(** The state after call [c] that raised [e] (or returned) and left [w]. *)
Definition after_call (s : State World) (c : Call) (e : option Exn) (w : World)
  : State World :=
  {| world := w; trace := trace s ++ [(c, e)]; reads := reads s |}.

(** The state after reading the attributes [names] of [self]. *)
Definition read (s : State World) (names : list string) : State World :=
  {| world := world s; trace := trace s; reads := reads s ++ names |}.

(** Same outcome, same world, same calls; the attribute reads may differ. *)
Definition same_effect {A} (x y : Outcome A * State World) : Prop :=
  x.1 = y.1 ∧ world x.2 = world y.2 ∧ trace x.2 = trace y.2.

(** Whenever a call made by [m] raises, it is the last thing [m] does and
    [m] raises the same exception. *)
Definition propagates {A} (m : M World A) : Prop :=
  ∀ s, ∃ evs,
    trace (m s).2 = trace s ++ evs ∧
    match (m s).1 with
    | Ok _ => clean evs
    | Raise e => clean evs ∨ ∃ pre c, evs = pre ++ [(c, Some e)] ∧ clean pre
    end.

(** A call that returns normally in every world. *)
Definition returns (c : Call) : Prop :=
  ∀ w, ∃ v w', env c w = (Ok v, w').

(** Every hook of phase [p] that [ts] defines returns normally. *)
Definition hooks_return (p : Phase) (ts : list Task) (args : list Value)
    (kwargs : Kwargs) : Prop :=
  ∀ task, In task (with_hook p ts) → returns (task_hook p task args kwargs).

(** The loop the class writes four times (lines 102-104, 108-110, 123-125
    and 134-136), with the hook as a parameter. *)
Definition dispatch (p : Phase) (ts : list Task) (args : list Value)
    (kwargs : Kwargs) : M World unit :=
  for_ ts (λ task,
    if hasattr task (hook_name p)
    then call env (task_hook p task args kwargs)
    else ret tt).

(** A descriptor that resolves to [cls] in every world. *)
Definition resolves_to (task_path : string) (cls : TaskClass) : Prop :=
  ∃ module classname,
    rsplit1 "." task_path = [module; classname] ∧
    ∀ w, ∃ mod_ w',
      env (import_module module) w = (Ok mod_, w') ∧
      mod_dict mod_ !! classname = Some cls.

(** [task] is what calling [cls(output_dir=out, **options)] returned. *)
Definition built_by (out : option string) (options : Kwargs)
    (cls : TaskClass) (task : Task) : Prop :=
  ∃ w w', env (task_init cls out options) w = (Ok task, w').

End Vocabulary.

(** ** A small concrete world

    Three task modules and a wrapped runner that never fails.  The world is
    a counter that numbers task instances as they are created.  Importing
    any other module fails; the hooks of [BrokenTask] raise. *)

Module Demo.

Definition lint_options : list CliOption :=
  [ make_option "--lint-rcfile" "store" "lint_rcfile" VNone "pylint rcfile" ].

Definition LintTask : TaskClass :=
  {| cls_name := "LintTask"; cls_option_list := Some lint_options;
     cls_has_add_arguments := true |}.

Definition CoverageTask : TaskClass :=
  {| cls_name := "CoverageTask"; cls_option_list := Some [];
     cls_has_add_arguments := false |}.

(** A task class written for the argument-parser interface only. *)
Definition PlainTask : TaskClass :=
  {| cls_name := "PlainTask"; cls_option_list := None;
     cls_has_add_arguments := true |}.

Definition BrokenTask : TaskClass :=
  {| cls_name := "BrokenTask"; cls_option_list := Some [];
     cls_has_add_arguments := false |}.

Definition modules : gmap string PyModule :=
  list_to_map
    [ ("tasks.lint",
       {| mod_name := "tasks.lint";
          mod_dict := {[ "LintTask" := LintTask ]} |});
      ("tasks.cov",
       {| mod_name := "tasks.cov";
          mod_dict := {[ "CoverageTask" := CoverageTask;
                         "BrokenTask" := BrokenTask ]} |});
      ("tasks.plain",
       {| mod_name := "tasks.plain";
          mod_dict := {[ "PlainTask" := PlainTask ]} |}) ].

(** The methods the instances of each class have. *)
Definition attrs_of (cls : TaskClass) : gset string :=
  if String.eqb (cls_name cls) "LintTask" then
    {[ "setup_test_environment"; "before_suite_run" ]}
  else if String.eqb (cls_name cls) "CoverageTask" then
    {[ "before_suite_run"; "after_suite_run"; "teardown_test_environment" ]}
  else if String.eqb (cls_name cls) "BrokenTask" then
    {[ "setup_test_environment"; "before_suite_run"; "after_suite_run";
       "teardown_test_environment" ]}
  else ∅.

(** What the hooks of a [BrokenTask] raise. *)
Definition boom : Exn := OtherException "RuntimeError" "boom".

Definition env (c : Call) : nat → Outcome (Ret c) * nat :=
  match c return nat → Outcome (Ret c) * nat with
  | import_module name => λ w,
      match modules !! name with
      | Some m => (Ok m, w)
      | None => (Raise (ImportError ("No module named " +:+ name)), w)
      end
  | super_init _ => λ w,
      (Ok {| base_verbosity := 2; base_failfast := true |}, w)
  | task_init cls _ _ => λ w,
      (Ok {| task_id := w; task_class := cls; task_attrs := attrs_of cls |},
       S w)
  | task_hook _ task _ _ => λ w,
      if String.eqb (cls_name (task_class task)) "BrokenTask"
      then (Raise boom, w)
      else (Ok tt, w)
  | super_run_suite _ _ => λ w, (Ok (VObj 1), w)
  | text_test_runner_run _ _ => λ w, (Ok (VObj 2), w)
  | discover_runner_add_arguments _ | task_add_arguments _ _ | parser_add_argument _ _
  | super_setup_test_environment _ | super_teardown_test_environment _
  | dump_xml _ _ => λ w, (Ok tt, w)
  end.

Definition s0 : State nat := {| world := 0%nat; trace := []; reads := [] |}.

Definition lint : Task :=
  {| task_id := 0; task_class := LintTask; task_attrs := attrs_of LintTask |}.
Definition cov : Task :=
  {| task_id := 1; task_class := CoverageTask;
     task_attrs := attrs_of CoverageTask |}.
Definition broken : Task :=
  {| task_id := 2; task_class := BrokenTask;
     task_attrs := attrs_of BrokenTask |}.

Definition kw : Kwargs := [("debug", VBool true)].
Definition suite : Value := VObj 0.

(** A runner in extended mode holding [ts]. *)
Definition extended (ts : list Task) : Runner :=
  {| verbosity := 2; failfast := true; jenkins := true;
     output_dir := Some (Some "reports"); tasks := Some ts |}.

(** A runner as [__init__] leaves it when extended mode is off. *)
Definition plain : Runner :=
  {| verbosity := 2; failfast := true; jenkins := false;
     output_dir := None; tasks := None |}.

End Demo.

(** ** Vocabulary of the further properties *)

(** The module a descriptor names: what stands before its last dot. *)
Definition module_part (task_path : string) : string :=
  match rsplit_last "." task_path with
  | Some (module, _) => module
  | None => task_path
  end.

Definition is_import_error (e : Exn) : bool :=
  match e with ImportError _ => true | _ => false end.

Definition is_improperly_configured (e : Exn) : bool :=
  match e with ImproperlyConfigured _ => true | _ => false end.

Definition is_attribute_error (e : Exn) : bool :=
  match e with AttributeError _ => true | _ => false end.

(** [c] is the call of the hook of phase [p] of a task of [ts] that has it. *)
Definition hook_call_of (p : Phase) (ts : list Task) (args : list Value)
    (kwargs : Kwargs) (c : Call) : Prop :=
  ∃ task, In task (with_hook p ts) ∧ c = task_hook p task args kwargs.

(** The task classes that have an [add_arguments] attribute. *)
Definition with_add_arguments (classes : list TaskClass) : list TaskClass :=
  List.filter cls_has_add_arguments classes.

(** A runner as [__init__(jenkins, out, ...)] must leave it for [n]
    configured descriptors. *)
Definition well_formed (jenkins_ : bool) (out : option string) (n : nat)
    (r : Runner) : Prop :=
  jenkins r = jenkins_ ∧
  if jenkins_
  then output_dir r = Some out ∧ ∃ ts, tasks r = Some ts ∧ length ts = n
  else output_dir r = None ∧ tasks r = None.

Section FurtherVocabulary.

Context {World : Type}.
Context (env : ∀ c : Call, World → Outcome (Ret c) * World).

(** Every call that [m] makes, whatever its fate, satisfies [P]. *)
Definition calls_within {A} (P : Call → Prop) (m : M World A) : Prop :=
  ∀ s, ∃ evs,
    trace (m s).2 = trace s ++ evs ∧ Forall (λ ev : Event, P ev.1) evs.

(** [cls] is the attribute that [task_path] names, in the module that it
    names, as some import of that module returned it. *)
Definition found_at (task_path : string) (cls : TaskClass) : Prop :=
  ∃ module classname mod_ w w',
    rsplit1 "." task_path = [module; classname] ∧
    env (import_module module) w = (Ok mod_, w') ∧
    mod_dict mod_ !! classname = Some cls.

(** Whatever [m] raises was raised by the last call it made, and no call
    before that one raised. *)
Definition transparent {A} (m : M World A) : Prop :=
  ∀ s, ∃ evs,
    trace (m s).2 = trace s ++ evs ∧
    match (m s).1 with
    | Ok _ => clean evs
    | Raise e => ∃ pre c, evs = pre ++ [(c, Some e)] ∧ clean pre
    end.

(** The events of importing, without failure, the module of each
    descriptor. *)
Definition import_events (paths : list string) : list Event :=
  map (λ task_path, (import_module (module_part task_path), None)) paths.

End FurtherVocabulary.

(** ** A world with faults

    The demo world, except that: importing [tasks.syntax] raises a
    SyntaxError; calling the class [BrokenTask] raises a TypeError; the
    wrapped runner's setup and teardown raise when called without keyword
    arguments; the text runner raises on the suite [None]; dumping to the
    directory [None] raises; and [DiscoverRunner.add_arguments] raises on
    the parser [None]. *)

Module Faulty.

Definition syntax_error : Exn := OtherException "SyntaxError" "invalid syntax".

Definition type_error : Exn :=
  OtherException "TypeError" "__init__() got an unexpected keyword argument".

Definition db_error : Exn := OtherException "RuntimeError" "no database".

Definition suite_error : Exn :=
  OtherException "TypeError" "'NoneType' object is not callable".

Definition path_error : Exn :=
  OtherException "TypeError" "expected str, not NoneType".

Definition parser_error : Exn :=
  AttributeError "'NoneType' object has no attribute 'add_argument'".

Definition env (c : Call) : nat → Outcome (Ret c) * nat :=
  match c as c' return nat → Outcome (Ret c') * nat with
  | import_module name => λ w,
      if String.eqb name "tasks.syntax" then (Raise syntax_error, w)
      else Demo.env (import_module name) w
  | task_init cls out options => λ w,
      if String.eqb (cls_name cls) "BrokenTask" then (Raise type_error, w)
      else Demo.env (task_init cls out options) w
  | super_setup_test_environment [] => λ w, (Raise db_error, w)
  | super_teardown_test_environment [] => λ w, (Raise db_error, w)
  | text_test_runner_run _ VNone => λ w, (Raise suite_error, w)
  | dump_xml _ None => λ w, (Raise path_error, w)
  | discover_runner_add_arguments VNone => λ w, (Raise parser_error, w)
  | c' => Demo.env c'
  end.

Definition parser : Value := VObj 9.

(** A runner in extended mode with no output directory. *)
Definition no_directory (ts : list Task) : Runner :=
  {| verbosity := 2; failfast := true; jenkins := true;
     output_dir := Some None; tasks := Some ts |}.

(** A runner built with jenkins=False whose flag was set afterwards. *)
Definition flipped : Runner :=
  {| verbosity := 2; failfast := true; jenkins := true;
     output_dir := None; tasks := None |}.

End Faulty.

(** ** A world with Python's check of the module name

    The world with faults, except that [import_module('')] raises the
    ValueError that [importlib] raises for an empty name. *)

Module Strict.

Definition empty_name : Exn := ValueError "Empty module name".

Definition env (c : Call) : nat → Outcome (Ret c) * nat :=
  match c as c' return nat → Outcome (Ret c') * nat with
  | import_module name => λ w,
      if String.eqb name EmptyString then (Raise empty_name, w)
      else Faulty.env (import_module name) w
  | c' => Faulty.env c'
  end.

End Strict.

(** * Properties *)

(** ** Strings *)

Lemma append_assoc (a b c : string) : (a +:+ b) +:+ c = a +:+ b +:+ c.
Proof.
  induction a as [|x a IH]; [reflexivity|].
  change (String x ((a +:+ b) +:+ c) = String x (a +:+ b +:+ c)).
  by rewrite IH.
Qed.

Lemma contains_here (a n b : string) : contains (a +:+ n +:+ b) n.
Proof. by exists a, b. Qed.

Lemma contains_skip (a s n : string) : contains s n → contains (a +:+ s) n.
Proof.
  intros (before & after & ->). exists (a +:+ before), after.
  by rewrite append_assoc.
Qed.

Lemma rsplit_last_no_sep sep s : has_sep sep s = false → rsplit_last sep s = None.
Proof.
  induction s as [|c s IH]; [done|]. simpl.
  intros [Hc Hs]%orb_false_iff. by rewrite (IH Hs), Hc.
Qed.

Lemma rsplit_last_join sep module classname :
  has_sep sep classname = false →
  rsplit_last sep (module +:+ String sep classname) = Some (module, classname).
Proof.
  intros Hc. induction module as [|c m IH].
  - change (rsplit_last sep (String sep classname)
            = Some (EmptyString, classname)).
    simpl. by rewrite (rsplit_last_no_sep _ _ Hc), Ascii.eqb_refl.
  - change (rsplit_last sep (String c (m +:+ String sep classname))
            = Some (String c m, classname)).
    simpl. by rewrite IH.
Qed.

Lemma rsplit1_join module classname :
  has_sep "." classname = false →
  rsplit1 "." (module +:+ "." +:+ classname) = [module; classname].
Proof.
  intros Hc. unfold rsplit1.
  change (module +:+ "." +:+ classname) with (module +:+ String "." classname).
  by rewrite rsplit_last_join.
Qed.

Lemma rsplit1_no_sep sep s : has_sep sep s = false → rsplit1 sep s = [s].
Proof. intros H. unfold rsplit1. by rewrite rsplit_last_no_sep. Qed.

(** Moving a fact that does not mention the witness out of an existential. *)
Lemma ex_comm_pair {A : Type} (P : Prop) (Q : A → Prop) :
  P ∧ (∃ a, Q a) → ∃ a, P ∧ Q a.
Proof. intros [HP [a HQ]]. by exists a. Qed.

(** ** The monad *)

Section MonadFacts.

Context {World : Type}.

Lemma bind_ok {A B} (m : M World A) (k : A → M World B) s a s' :
  m s = (Ok a, s') → bind m k s = k a s'.
Proof. unfold bind. by intros ->. Qed.

Lemma bind_raise {A B} (m : M World A) (k : A → M World B) s e s' :
  m s = (Raise e, s') → bind m k s = (Raise e, s').
Proof. unfold bind. by intros ->. Qed.

End MonadFacts.

(** ** Task resolution *)

Section Resolution.

Context {World : Type}.
Context (env : ∀ c : Call, World → Outcome (Ret c) * World).

Local Abbreviation M := (M World).

Lemma call_ok c s v w :
  env c (world s) = (Ok v, w) → call env c s = (Ok v, after_call s c None w).
Proof. unfold call. by intros ->. Qed.

Lemma call_raise c s e w :
  env c (world s) = (Raise e, w) →
  call env c s = (Raise e, after_call s c (Some e) w).
Proof. unfold call. by intros ->. Qed.

(** The four ways one descriptor can go. *)

Lemma resolve_task_no_sep task_path s :
  has_sep "." task_path = false →
  resolve_task env task_path s
  = (Raise (ImproperlyConfigured (task_path +:+ " isn't a task module")), s).
Proof.
  intros H. unfold resolve_task, bind, try_except, lift.
  by rewrite (rsplit1_no_sep _ _ H).
Qed.

Lemma resolve_task_found task_path module classname s mod_ w cls :
  rsplit1 "." task_path = [module; classname] →
  env (import_module module) (world s) = (Ok mod_, w) →
  mod_dict mod_ !! classname = Some cls →
  resolve_task env task_path s
  = (Ok cls, after_call s (import_module module) None w).
Proof.
  intros Hsplit Himp Hcls.
  unfold resolve_task, bind, try_except, lift, getattr_module.
  rewrite Hsplit. simpl. rewrite (call_ok _ _ _ _ Himp). by rewrite Hcls.
Qed.

Lemma resolve_task_import_error task_path module classname s msg w :
  rsplit1 "." task_path = [module; classname] →
  env (import_module module) (world s) = (Raise (ImportError msg), w) →
  resolve_task env task_path s
  = (Raise (ImproperlyConfigured
      ("Error importing task " +:+ module +:+ ": " +:+ dq +:+ msg +:+ dq)),
     after_call s (import_module module) (Some (ImportError msg)) w).
Proof.
  intros Hsplit Himp.
  unfold resolve_task, bind, try_except, lift.
  rewrite Hsplit. simpl. by rewrite (call_raise _ _ _ _ Himp).
Qed.

Lemma resolve_task_no_class task_path module classname s mod_ w :
  rsplit1 "." task_path = [module; classname] →
  env (import_module module) (world s) = (Ok mod_, w) →
  mod_dict mod_ !! classname = None →
  resolve_task env task_path s
  = (Raise (ImproperlyConfigured
      ("Task module " +:+ dq +:+ module +:+ dq +:+ " does not define a "
       +:+ dq +:+ classname +:+ dq +:+ " class")),
     after_call s (import_module module) None w).
Proof.
  intros Hsplit Himp Hcls.
  unfold resolve_task, bind, try_except, lift, getattr_module.
  rewrite Hsplit. simpl. rewrite (call_ok _ _ _ _ Himp). by rewrite Hcls.
Qed.

(** One descriptor makes at most one call, whatever happens. *)
Lemma resolve_task_trace task_path s :
  ∃ evs, trace (resolve_task env task_path s).2 = trace s ++ evs
         ∧ (length evs ≤ 1)%nat.
Proof.
  unfold resolve_task, bind, try_except, lift.
  destruct (unpack2 (rsplit1 "." task_path)) as [[module classname]|e]; simpl.
  - unfold call. destruct (env (import_module module) (world s)) as [[mod_|e] w].
    + exists [(import_module module, None)].
      destruct (getattr_module mod_ classname) as [cls|[]]; simpl; auto.
    + exists [(import_module module, Some e)]. destruct e; simpl; auto.
  - exists []. rewrite app_nil_r. destruct e; simpl; auto.
Qed.

Lemma get_tasks_loop_app pre rest acc s :
  get_tasks_loop env (pre ++ rest) acc s
  = bind (get_tasks_loop env pre acc) (get_tasks_loop env rest) s.
Proof.
  revert acc s. induction pre as [|p pre IH]; intros acc s; [reflexivity|].
  simpl. unfold bind.
  destruct (resolve_task env p s) as [[cls|e] s1]; [|reflexivity].
  by rewrite IH.
Qed.

Lemma get_tasks_loop_resolves paths classes :
  Forall2 (resolves_to env) paths classes →
  ∀ acc s, ∃ s', get_tasks_loop env paths acc s = (Ok (acc ++ classes), s').
Proof.
  induction 1 as [|p cls paths classes (module & classname & Hsplit & Himp) _ IH];
    intros acc s.
  - exists s. simpl. by rewrite app_nil_r.
  - destruct (Himp (world s)) as (mod_ & w & Hw & Hcls).
    simpl. rewrite (bind_ok _ _ _ _ _ (resolve_task_found _ _ _ _ _ _ _ Hsplit Hw Hcls)).
    destruct (IH (acc ++ [cls]) (after_call s (import_module module) None w))
      as [s' Hs'].
    exists s'. by rewrite Hs', <- app_assoc.
Qed.

(** C3. When every descriptor of the configuration list resolves, get_tasks
    returns the resolved classes, one per descriptor and in the order of
    the list. *)
Theorem get_tasks_preserves_order (TASKS : list string) (classes : list TaskClass) :
  Forall2 (resolves_to env) TASKS classes →
  ∀ s, ∃ s', get_tasks env TASKS s = (Ok classes, s')
             ∧ length classes = length TASKS.
Proof.
  intros H s. destruct (get_tasks_loop_resolves _ _ H [] s) as [s' Hs'].
  exists s'. split; [exact Hs'|]. symmetry. by eapply Forall2_length.
Qed.

(** C6, as the code has it. When the first descriptor that does not
    resolve names a module whose import raises ImportError, get_tasks
    raises ImproperlyConfigured with the module name in the message; when
    the module imports but has no attribute of the class name, it raises
    ImproperlyConfigured with both the module name and the class name in
    the message. *)
Theorem get_tasks_error_messages
    (pre post : list string) (module classname : string)
    (pre_classes : list TaskClass) (s s1 : State World) :
  has_sep "." classname = false →
  get_tasks env pre s = (Ok pre_classes, s1) →
  (∀ msg w,
     env (import_module module) (world s1) = (Raise (ImportError msg), w) →
     ∃ text s',
       get_tasks env (pre ++ (module +:+ "." +:+ classname) :: post) s
       = (Raise (ImproperlyConfigured text), s')
       ∧ contains text module)
  ∧
  (∀ mod_ w,
     env (import_module module) (world s1) = (Ok mod_, w) →
     mod_dict mod_ !! classname = None →
     ∃ text s',
       get_tasks env (pre ++ (module +:+ "." +:+ classname) :: post) s
       = (Raise (ImproperlyConfigured text), s')
       ∧ contains text module ∧ contains text classname).
Proof.
  intros Hc Hpre. pose proof (rsplit1_join module _ Hc) as Hsplit.
  unfold get_tasks in *. split.
  - intros msg w Himp. eexists _, _. split.
    + rewrite get_tasks_loop_app, (bind_ok _ _ _ _ _ Hpre). simpl.
      by rewrite (bind_raise _ _ _ _ _
                    (resolve_task_import_error _ _ _ _ _ _ Hsplit Himp)).
    + apply contains_here.
  - intros mod_ w Himp Hcls. eexists _, _. split; [|split].
    + rewrite get_tasks_loop_app, (bind_ok _ _ _ _ _ Hpre). simpl.
      by rewrite (bind_raise _ _ _ _ _
                    (resolve_task_no_class _ _ _ _ _ _ Hsplit Himp Hcls)).
    + apply contains_skip, contains_here.
    + do 5 apply contains_skip. apply contains_here.
Qed.

(** C7. A descriptor without a dot makes get_tasks raise
    ImproperlyConfigured; and whatever the first failing descriptor raises
    is what get_tasks raises, in the state reached at that failure: the
    failing descriptor made at most one call, the descriptors after it are
    never looked at, and no list of classes is returned. *)
Theorem get_tasks_first_failure_aborts
    (pre post : list string) (task_path : string)
    (pre_classes : list TaskClass) (s s1 : State World) :
  get_tasks env pre s = (Ok pre_classes, s1) →
  (has_sep "." task_path = false →
   get_tasks env (pre ++ task_path :: post) s
   = (Raise (ImproperlyConfigured (task_path +:+ " isn't a task module")), s1))
  ∧
  (∀ e s2,
     resolve_task env task_path s1 = (Raise e, s2) →
     get_tasks env (pre ++ task_path :: post) s = (Raise e, s2)
     ∧ ∃ evs, trace s2 = trace s1 ++ evs ∧ (length evs ≤ 1)%nat).
Proof.
  intros Hpre. unfold get_tasks in *.
  assert (Habort : ∀ e s2,
    resolve_task env task_path s1 = (Raise e, s2) →
    get_tasks_loop env (pre ++ task_path :: post) [] s = (Raise e, s2)).
  { intros e s2 Hfail.
    rewrite get_tasks_loop_app, (bind_ok _ _ _ _ _ Hpre). simpl.
    by rewrite (bind_raise _ _ _ _ _ Hfail). }
  split.
  - intros Hsep. apply Habort. by apply resolve_task_no_sep.
  - intros e s2 Hfail. split; [by apply Habort|].
    destruct (resolve_task_trace task_path s1) as (evs & Htr & Hlen).
    rewrite Hfail in Htr. by exists evs.
Qed.

End Resolution.

(** ** Lifecycle dispatch *)

Section Lifecycle.

Context {World : Type}.
Context (env : ∀ c : Call, World → Outcome (Ret c) * World).

Local Abbreviation M := (M World).

Lemma read_attr_some {A} name (a : A) (s : State World) :
  read_attr name (Some a) s = (Ok a, read s [name]).
Proof. reflexivity. Qed.

Lemma dispatch_returns p ts args kwargs :
  hooks_return env p ts args kwargs →
  ∀ s, ∃ w,
    dispatch env p ts args kwargs s
    = (Ok tt, {| world := w;
                 trace := trace s ++ hook_events p (with_hook p ts) args kwargs;
                 reads := reads s |}).
Proof.
  unfold dispatch, hooks_return, with_hook.
  induction ts as [|task ts IH]; intros Hret s.
  - exists (world s). simpl. unfold ret. rewrite app_nil_r. by destruct s.
  - simpl in *. destruct (hasattr task (hook_name p)) eqn:Hhas.
    + destruct (Hret task (or_introl eq_refl) (world s)) as ([] & w1 & Hw1).
      rewrite (bind_ok _ _ _ _ _ (call_ok _ _ _ _ _ Hw1)).
      destruct (IH (λ t Ht, Hret t (or_intror Ht))
                   (after_call s (task_hook p task args kwargs) None w1))
        as [w ->].
      exists w. simpl. by rewrite <- app_assoc.
    + unfold bind at 1, ret at 1. apply IH, Hret.
Qed.

(** The loops of the three methods are instances of [dispatch]. *)

Lemma setup_test_environment_dispatch self kwargs :
  CIRunner.setup_test_environment env self kwargs
  = (call env (super_setup_test_environment kwargs) ;;
     j <- read_attr "jenkins" (Some (jenkins self)) ;;
     if j : bool then
       ts <- read_attr "tasks" (tasks self) ;;
       dispatch env SetupEnv ts [] kwargs
     else ret tt).
Proof. reflexivity. Qed.

Lemma run_suite_dispatch self suite kwargs :
  CIRunner.run_suite env self suite kwargs
  = (j <- read_attr "jenkins" (Some (jenkins self)) ;;
     if j : bool then
       ts <- read_attr "tasks" (tasks self) ;;
       dispatch env BeforeSuite ts [suite] kwargs ;;
       v <- read_attr "verbosity" (Some (verbosity self)) ;;
       f <- read_attr "failfast" (Some (failfast self)) ;;
       result <- call env (text_test_runner_run
                             {| tr_buffer := true;
                                tr_resultclass := "XMLTestResult";
                                tr_verbosity := v; tr_failfast := f |} suite) ;;
       out <- read_attr "output_dir" (output_dir self) ;;
       call env (dump_xml result out) ;;
       ts <- read_attr "tasks" (tasks self) ;;
       dispatch env AfterSuite ts [suite] kwargs ;;
       ret result
     else call env (super_run_suite suite kwargs)).
Proof. reflexivity. Qed.

Lemma teardown_test_environment_dispatch self kwargs :
  CIRunner.teardown_test_environment env self kwargs
  = (call env (super_teardown_test_environment kwargs) ;;
     j <- read_attr "jenkins" (Some (jenkins self)) ;;
     if j : bool then
       ts <- read_attr "tasks" (tasks self) ;;
       dispatch env TeardownEnv ts [] kwargs
     else ret tt).
Proof. reflexivity. Qed.

(** The three methods in extended mode, when every call they make returns. *)

Lemma setup_test_environment_extended self ts kwargs s :
  jenkins self = true → tasks self = Some ts →
  returns env (super_setup_test_environment kwargs) →
  hooks_return env SetupEnv ts [] kwargs →
  ∃ w,
    CIRunner.setup_test_environment env self kwargs s
    = (Ok tt,
       {| world := w;
          trace := trace s ++ (super_setup_test_environment kwargs, None)
                     :: hook_events SetupEnv (with_hook SetupEnv ts) [] kwargs;
          reads := reads s ++ ["jenkins"; "tasks"] |}).
Proof.
  intros Hj Ht Hsup Hhooks. destruct (Hsup (world s)) as ([] & w1 & Hw1).
  rewrite setup_test_environment_dispatch.
  rewrite (bind_ok _ _ _ _ _ (call_ok _ _ _ _ _ Hw1)).
  rewrite (bind_ok _ _ _ _ _ (read_attr_some _ _ _)), Hj, Ht.
  rewrite (bind_ok _ _ _ _ _ (read_attr_some _ _ _)).
  edestruct (dispatch_returns _ _ _ _ Hhooks) as [w ->].
  exists w. simpl. by rewrite <- !app_assoc.
Qed.

Lemma teardown_test_environment_extended self ts kwargs s :
  jenkins self = true → tasks self = Some ts →
  returns env (super_teardown_test_environment kwargs) →
  hooks_return env TeardownEnv ts [] kwargs →
  ∃ w,
    CIRunner.teardown_test_environment env self kwargs s
    = (Ok tt,
       {| world := w;
          trace := trace s ++ (super_teardown_test_environment kwargs, None)
                     :: hook_events TeardownEnv (with_hook TeardownEnv ts) [] kwargs;
          reads := reads s ++ ["jenkins"; "tasks"] |}).
Proof.
  intros Hj Ht Hsup Hhooks. destruct (Hsup (world s)) as ([] & w1 & Hw1).
  rewrite teardown_test_environment_dispatch.
  rewrite (bind_ok _ _ _ _ _ (call_ok _ _ _ _ _ Hw1)).
  rewrite (bind_ok _ _ _ _ _ (read_attr_some _ _ _)), Hj, Ht.
  rewrite (bind_ok _ _ _ _ _ (read_attr_some _ _ _)).
  edestruct (dispatch_returns _ _ _ _ Hhooks) as [w ->].
  exists w. simpl. by rewrite <- !app_assoc.
Qed.

Lemma run_suite_extended self ts out suite kwargs s :
  jenkins self = true → tasks self = Some ts → output_dir self = Some out →
  hooks_return env BeforeSuite ts [suite] kwargs →
  returns env (text_test_runner_run (xml_runner self) suite) →
  (∀ result, returns env (dump_xml result out)) →
  hooks_return env AfterSuite ts [suite] kwargs →
  ∃ s1 result w2 w,
    dispatch env BeforeSuite ts [suite] kwargs (read s ["jenkins"; "tasks"])
    = (Ok tt, s1)
    ∧ env (text_test_runner_run (xml_runner self) suite) (world s1)
      = (Ok result, w2)
    ∧ CIRunner.run_suite env self suite kwargs s
      = (Ok result,
         {| world := w;
            trace := trace s
              ++ hook_events BeforeSuite (with_hook BeforeSuite ts) [suite] kwargs
              ++ [ (text_test_runner_run (xml_runner self) suite, None);
                   (dump_xml result out, None) ]
              ++ hook_events AfterSuite (with_hook AfterSuite ts) [suite] kwargs;
            reads := reads s ++ ["jenkins"; "tasks"; "verbosity"; "failfast";
                                 "output_dir"; "tasks"] |}).
Proof.
  intros Hj Ht Ho Hbefore Hrun Hdump Hafter. unfold xml_runner in *.
  destruct (dispatch_returns _ _ _ _ Hbefore (read s ["jenkins"; "tasks"]))
    as [w1 Hw1].
  destruct (Hrun w1) as (result & w2 & Hw2).
  destruct (Hdump result w2) as ([] & w3 & Hw3).
  eexists _, result, w2. apply ex_comm_pair. split; [exact Hw1|].
  apply ex_comm_pair. split; [exact Hw2|].
  rewrite run_suite_dispatch.
  rewrite (bind_ok _ _ _ _ _ (read_attr_some _ _ _)), Hj, Ht.
  rewrite (bind_ok _ _ _ _ _ (read_attr_some _ _ _)).
  unfold read in *. simpl in *. rewrite <- app_assoc. simpl.
  rewrite (bind_ok _ _ _ _ _ Hw1).
  rewrite (bind_ok _ _ _ _ _ (read_attr_some _ _ _)).
  rewrite (bind_ok _ _ _ _ _ (read_attr_some _ _ _)).
  unfold bind at 1, call at 1. simpl. rewrite Hw2, Ho.
  rewrite (bind_ok _ _ _ _ _ (read_attr_some _ _ _)).
  unfold bind at 1, call at 1. simpl. rewrite Hw3.
  rewrite (bind_ok _ _ _ _ _ (read_attr_some _ _ _)).
  edestruct (dispatch_returns _ _ _ _ Hafter) as [w Hw].
  rewrite (bind_ok _ _ _ _ _ Hw). exists w. unfold ret. simpl.
  f_equal. f_equal; rewrite <- ?app_assoc; reflexivity.
Qed.

(** *** Exceptions are never swallowed

    The lifecycle methods have no [try], so they are built from pieces
    that all propagate. *)

Lemma propagates_lift {A} (o : Outcome A) : propagates (lift o : M A).
Proof.
  intros s. exists []. simpl. rewrite app_nil_r. split; [done|].
  destruct o; [|left]; constructor.
Qed.

Lemma propagates_ret {A} (a : A) : propagates (ret a : M A).
Proof. apply (propagates_lift (Ok a)). Qed.

Lemma propagates_read_attr {A} name (v : option A) :
  propagates (read_attr name v : M A).
Proof.
  intros s. exists []. unfold read_attr.
  destruct v; simpl; rewrite app_nil_r; (split; [done|]);
    [|left]; constructor.
Qed.

Lemma propagates_call c : propagates (call env c).
Proof.
  intros s. unfold call. destruct (env c (world s)) as [[v|e] w]; simpl.
  - exists [(c, None)]. split; [done|]. by repeat constructor.
  - exists [(c, Some e)]. split; [done|]. right. exists [], c.
    split; [done|constructor].
Qed.

Lemma propagates_bind {A B} (m : M A) (k : A → M B) :
  propagates m → (∀ a, propagates (k a)) → propagates (bind m k).
Proof.
  intros Hm Hk s. destruct (Hm s) as (evs1 & Htr1 & H1). unfold bind.
  destruct (m s) as [[a|e] s1]; simpl in *; [|by exists evs1].
  destruct (Hk a s1) as (evs2 & Htr2 & H2).
  exists (evs1 ++ evs2). split; [by rewrite Htr2, Htr1, app_assoc|].
  destruct (k a s1).1 as [b|e].
  - by apply Forall_app.
  - destruct H2 as [H2|(pre & c & -> & Hpre)].
    + left. by apply Forall_app.
    + right. exists (evs1 ++ pre), c. split; [by rewrite app_assoc|].
      by apply Forall_app.
Qed.

Lemma propagates_for {A} (xs : list A) (body : A → M unit) :
  (∀ x, propagates (body x)) → propagates (for_ xs body).
Proof.
  intros Hbody. induction xs as [|x xs IH]; simpl.
  - apply propagates_ret.
  - apply propagates_bind; [apply Hbody|]. intros _. apply IH.
Qed.

Lemma propagates_dispatch p ts args kwargs :
  propagates (dispatch env p ts args kwargs).
Proof.
  apply propagates_for. intros task.
  destruct (hasattr task (hook_name p));
    [exact (propagates_call _) | apply propagates_ret].
Qed.

Create HintDb propagate.
#[local] Hint Resolve propagates_ret propagates_read_attr
  propagates_dispatch : propagate.

Ltac propagate :=
  repeat first
    [ apply propagates_bind; [|intros ?]
    | match goal with
      | |- propagates (if ?b then _ else _) => destruct b
      | |- propagates (call _ ?c) => exact (propagates_call c)
      end
    | solve [auto with propagate] ].

Lemma propagates_setup self kwargs :
  propagates (CIRunner.setup_test_environment env self kwargs).
Proof. rewrite setup_test_environment_dispatch. propagate. Qed.

Lemma propagates_run_suite self suite kwargs :
  propagates (CIRunner.run_suite env self suite kwargs).
Proof. rewrite run_suite_dispatch. propagate. Qed.

Lemma propagates_teardown self kwargs :
  propagates (CIRunner.teardown_test_environment env self kwargs).
Proof. rewrite teardown_test_environment_dispatch. propagate. Qed.

Lemma clean_no_raise evs c e : clean evs → ¬ In (c, Some e) evs.
Proof.
  intros Hclean Hin. unfold clean in Hclean. rewrite List.Forall_forall in Hclean.
  by specialize (Hclean _ Hin).
Qed.

(** In a computation that propagates, an event that records a raise is the
    last event, and what it raised is what the computation raises. *)
Lemma raising_event_is_last {A} (m : M A) s evs c e :
  propagates m →
  trace (m s).2 = trace s ++ evs →
  In (c, Some e) evs →
  (m s).1 = Raise e ∧ ∃ pre, evs = pre ++ [(c, Some e)] ∧ clean pre.
Proof.
  intros Hm Htr Hin. destruct (Hm s) as (evs' & Htr' & Hcase).
  rewrite Htr in Htr'. apply app_inv_head in Htr'. subst evs'.
  destruct (m s).1 as [a|e0].
  - by destruct (clean_no_raise _ _ _ Hcase Hin).
  - destruct Hcase as [Hclean|(pre & c0 & -> & Hpre)].
    + by destruct (clean_no_raise _ _ _ Hclean Hin).
    + apply in_app_or in Hin as [Hin|[Heq|[]]].
      * by destruct (clean_no_raise _ _ _ Hpre Hin).
      * injection Heq as -> ->. split; [done|]. by exists pre.
Qed.

(** C8. In each lifecycle method, if the call of a task's hook raised, then
    the method raises that same exception, the hook call is the last call
    the method made (no hook of a later task is called) and no call before
    it had raised. *)
Theorem hook_exception_aborts_phase
    (self : Runner) (suite : Value) (kwargs : Kwargs) (s : State World)
    (p : Phase) (task : Task) (args : list Value) (kw : Kwargs) (e : Exn)
    (evs : list Event) :
  In (task_hook p task args kw, Some e) evs →
  (trace (CIRunner.setup_test_environment env self kwargs s).2 = trace s ++ evs →
   (CIRunner.setup_test_environment env self kwargs s).1 = Raise e
   ∧ ∃ pre, evs = pre ++ [(task_hook p task args kw, Some e)] ∧ clean pre)
  ∧
  (trace (CIRunner.run_suite env self suite kwargs s).2 = trace s ++ evs →
   (CIRunner.run_suite env self suite kwargs s).1 = Raise e
   ∧ ∃ pre, evs = pre ++ [(task_hook p task args kw, Some e)] ∧ clean pre)
  ∧
  (trace (CIRunner.teardown_test_environment env self kwargs s).2 = trace s ++ evs →
   (CIRunner.teardown_test_environment env self kwargs s).1 = Raise e
   ∧ ∃ pre, evs = pre ++ [(task_hook p task args kw, Some e)] ∧ clean pre).
Proof.
  intros Hin. split; [|split]; intros Htr.
  - by apply (raising_event_is_last _ _ _ _ _ (propagates_setup _ _)).
  - by apply (raising_event_is_last _ _ _ _ _ (propagates_run_suite _ _ _)).
  - by apply (raising_event_is_last _ _ _ _ _ (propagates_teardown _ _)).
Qed.

(** *** Which hooks were called *)

Lemma hooked_app p evs1 evs2 :
  hooked p (evs1 ++ evs2) = hooked p evs1 ++ hooked p evs2.
Proof. unfold hooked. apply flat_map_app. Qed.

Lemma hooked_hook_events p q ts args kwargs :
  hooked p (hook_events q ts args kwargs) = if phase_eqb p q then ts else [].
Proof.
  unfold hooked, hook_events. induction ts as [|task ts IH]; simpl.
  - by destruct (phase_eqb p q).
  - rewrite IH. by destruct (phase_eqb p q).
Qed.

(** C1. In extended mode, when the calls a lifecycle method makes return,
    the method returns and the tasks whose hooks of the phase were called
    are exactly the tasks of [self.tasks] that have the hook, in the order
    of [self.tasks]; this holds for the setup hooks in
    setup_test_environment, the before and after hooks in run_suite and
    the teardown hooks in teardown_test_environment. *)
Theorem hooks_dispatched_in_order
    (self : Runner) (ts : list Task) (out : option string)
    (suite : Value) (kwargs : Kwargs) (s : State World) :
  jenkins self = true → tasks self = Some ts → output_dir self = Some out →
  (returns env (super_setup_test_environment kwargs) →
   hooks_return env SetupEnv ts [] kwargs →
   ∃ s', CIRunner.setup_test_environment env self kwargs s = (Ok tt, s')
         ∧ hooked SetupEnv (trace s')
           = hooked SetupEnv (trace s) ++ with_hook SetupEnv ts)
  ∧
  (hooks_return env BeforeSuite ts [suite] kwargs →
   returns env (text_test_runner_run (xml_runner self) suite) →
   (∀ result, returns env (dump_xml result out)) →
   hooks_return env AfterSuite ts [suite] kwargs →
   ∃ result s', CIRunner.run_suite env self suite kwargs s = (Ok result, s')
         ∧ hooked BeforeSuite (trace s')
           = hooked BeforeSuite (trace s) ++ with_hook BeforeSuite ts
         ∧ hooked AfterSuite (trace s')
           = hooked AfterSuite (trace s) ++ with_hook AfterSuite ts)
  ∧
  (returns env (super_teardown_test_environment kwargs) →
   hooks_return env TeardownEnv ts [] kwargs →
   ∃ s', CIRunner.teardown_test_environment env self kwargs s = (Ok tt, s')
         ∧ hooked TeardownEnv (trace s')
           = hooked TeardownEnv (trace s) ++ with_hook TeardownEnv ts).
Proof.
  intros Hj Ht Ho. split; [|split].
  - intros Hsup Hhooks.
    destruct (setup_test_environment_extended _ _ _ s Hj Ht Hsup Hhooks)
      as [w ->].
    eexists. split; [reflexivity|]. simpl.
    rewrite hooked_app. simpl. by rewrite hooked_hook_events.
  - intros Hbefore Hrun Hdump Hafter.
    destruct (run_suite_extended _ _ _ _ _ s Hj Ht Ho Hbefore Hrun Hdump Hafter)
      as (s1 & result & w2 & w & _ & _ & ->).
    eexists _, _. split; [reflexivity|]. simpl.
    rewrite !hooked_app, !hooked_hook_events. simpl.
    rewrite !hooked_hook_events. simpl. by rewrite app_nil_r.
  - intros Hsup Hhooks.
    destruct (teardown_test_environment_extended _ _ _ s Hj Ht Hsup Hhooks)
      as [w ->].
    eexists. split; [reflexivity|]. simpl.
    rewrite hooked_app. simpl. by rewrite hooked_hook_events.
Qed.

(** C2. In extended mode, when the calls it makes return, run_suite calls
    the before_suite_run hook of each task that has one, in order, then
    runs the suite with a text runner built with buffer=True, the XML
    result class and the runner's own verbosity and failfast, then dumps
    the result of that run to self.output_dir, then calls the
    after_suite_run hook of each task that has one, in the same order, and
    returns the result of the run. *)
Theorem run_suite_extended_sequence
    (self : Runner) (ts : list Task) (out : option string)
    (suite : Value) (kwargs : Kwargs) (s : State World) :
  jenkins self = true → tasks self = Some ts → output_dir self = Some out →
  hooks_return env BeforeSuite ts [suite] kwargs →
  returns env (text_test_runner_run (xml_runner self) suite) →
  (∀ result, returns env (dump_xml result out)) →
  hooks_return env AfterSuite ts [suite] kwargs →
  ∃ s1 result w2 s',
    dispatch env BeforeSuite ts [suite] kwargs (read s ["jenkins"; "tasks"])
    = (Ok tt, s1)
    ∧ env (text_test_runner_run (xml_runner self) suite) (world s1)
      = (Ok result, w2)
    ∧ CIRunner.run_suite env self suite kwargs s = (Ok result, s')
    ∧ trace s'
      = trace s
        ++ hook_events BeforeSuite (with_hook BeforeSuite ts) [suite] kwargs
        ++ [ (text_test_runner_run
                {| tr_buffer := true; tr_resultclass := "XMLTestResult";
                   tr_verbosity := verbosity self;
                   tr_failfast := failfast self |} suite, None);
             (dump_xml result out, None) ]
        ++ hook_events AfterSuite (with_hook AfterSuite ts) [suite] kwargs.
Proof.
  intros Hj Ht Ho Hbefore Hrun Hdump Hafter.
  destruct (run_suite_extended _ _ _ _ _ s Hj Ht Ho Hbefore Hrun Hdump Hafter)
    as (s1 & result & w2 & w & H1 & H2 & H3).
  by eexists s1, result, w2, _.
Qed.

(** C5, as the code has it. In extended mode, when the calls they make
    return, setup_test_environment and teardown_test_environment both call
    the wrapped runner first and then the hook of each task that has one,
    in the order of self.tasks, each call with the keyword arguments the
    method received. *)
Theorem environment_hooks_after_wrapped_runner
    (self : Runner) (ts : list Task) (kwargs : Kwargs) (s : State World) :
  jenkins self = true → tasks self = Some ts →
  (returns env (super_setup_test_environment kwargs) →
   hooks_return env SetupEnv ts [] kwargs →
   ∃ s', CIRunner.setup_test_environment env self kwargs s = (Ok tt, s')
         ∧ trace s'
           = trace s ++ (super_setup_test_environment kwargs, None)
               :: map (λ task, (task_hook SetupEnv task [] kwargs, None))
                      (with_hook SetupEnv ts))
  ∧
  (returns env (super_teardown_test_environment kwargs) →
   hooks_return env TeardownEnv ts [] kwargs →
   ∃ s', CIRunner.teardown_test_environment env self kwargs s = (Ok tt, s')
         ∧ trace s'
           = trace s ++ (super_teardown_test_environment kwargs, None)
               :: map (λ task, (task_hook TeardownEnv task [] kwargs, None))
                      (with_hook TeardownEnv ts)).
Proof.
  intros Hj Ht. split; intros Hsup Hhooks.
  - destruct (setup_test_environment_extended _ _ _ s Hj Ht Hsup Hhooks)
      as [w ->].
    by eexists.
  - destruct (teardown_test_environment_extended _ _ _ s Hj Ht Hsup Hhooks)
      as [w ->].
    by eexists.
Qed.

(** *** Extended mode off *)

Lemma init_disabled TASKS out options s :
  CIRunner.__init__ env TASKS false out options s
  = match env (super_init options) (world s) with
    | (Ok base, w) =>
        (Ok {| verbosity := base_verbosity base;
               failfast := base_failfast base;
               jenkins := false; output_dir := None; tasks := None |},
         read (after_call s (super_init options) None w) ["jenkins"])
    | (Raise e, w) =>
        (Raise e, after_call s (super_init options) (Some e) w)
    end.
Proof.
  unfold CIRunner.__init__, bind, call.
  by destruct (env (super_init options) (world s)) as [[base|e] w].
Qed.

Lemma setup_test_environment_disabled self kwargs s :
  jenkins self = false →
  CIRunner.setup_test_environment env self kwargs s
  = match call env (super_setup_test_environment kwargs) s with
    | (Ok _, s') => (Ok tt, read s' ["jenkins"])
    | (Raise e, s') => (Raise e, s')
    end.
Proof.
  intros Hj. unfold CIRunner.setup_test_environment, bind.
  destruct (call env _ s) as [[[]|e] s']; [|done].
  by rewrite read_attr_some, Hj.
Qed.

Lemma run_suite_disabled self suite kwargs s :
  jenkins self = false →
  CIRunner.run_suite env self suite kwargs s
  = call env (super_run_suite suite kwargs) (read s ["jenkins"]).
Proof.
  intros Hj. unfold CIRunner.run_suite, bind. by rewrite read_attr_some, Hj.
Qed.

Lemma teardown_test_environment_disabled self kwargs s :
  jenkins self = false →
  CIRunner.teardown_test_environment env self kwargs s
  = match call env (super_teardown_test_environment kwargs) s with
    | (Ok _, s') => (Ok tt, read s' ["jenkins"])
    | (Raise e, s') => (Raise e, s')
    end.
Proof.
  intros Hj. unfold CIRunner.teardown_test_environment, bind.
  destruct (call env _ s) as [[[]|e] s']; [|done].
  by rewrite read_attr_some, Hj.
Qed.

(** C4. With jenkins=False, __init__ makes one call, the wrapped runner's
    __init__ (no import, no task class called), and leaves no task list;
    and on a runner whose jenkins flag is off, setup_test_environment,
    run_suite and teardown_test_environment each have the outcome, the
    effect on the world and the trace of the single call to the wrapped
    runner's method of the same name. *)
Theorem disabled_mode_delegates
    (TASKS : list string) (out : option string) (options : Kwargs)
    (self : Runner) (suite : Value) (kwargs : Kwargs) (s : State World) :
  jenkins self = false →
  (∃ ev, ev.1 = super_init options
         ∧ trace (CIRunner.__init__ env TASKS false out options s).2 = trace s ++ [ev])
  ∧ (∀ r s', CIRunner.__init__ env TASKS false out options s = (Ok r, s') →
             jenkins r = false ∧ tasks r = None)
  ∧ same_effect (CIRunner.setup_test_environment env self kwargs s)
                (call env (super_setup_test_environment kwargs) s)
  ∧ same_effect (CIRunner.run_suite env self suite kwargs s)
                (call env (super_run_suite suite kwargs) s)
  ∧ same_effect (CIRunner.teardown_test_environment env self kwargs s)
                (call env (super_teardown_test_environment kwargs) s).
Proof.
  intros Hj. unfold same_effect. split; [|split; [|split; [|split]]].
  - rewrite init_disabled.
    destruct (env (super_init options) (world s)) as [[base|e] w];
      by eexists (_, _).
  - intros r s'. rewrite init_disabled.
    destruct (env (super_init options) (world s)) as [[base|e] w];
      [|done].
    by intros [= <- _].
  - rewrite setup_test_environment_disabled by done.
    by destruct (call env _ s) as [[[]|e] s'].
  - rewrite run_suite_disabled by done. unfold call. simpl.
    by destruct (env _ (world s)) as [[v|e] w].
  - rewrite teardown_test_environment_disabled by done.
    by destruct (call env _ s) as [[[]|e] s'].
Qed.

(** C10. A runner that __init__ returns for jenkins=False has neither an
    output_dir nor a tasks attribute, and on it each lifecycle method reads
    no attribute of self other than jenkins. *)
Theorem disabled_mode_reads_only_the_flag
    (TASKS : list string) (out : option string) (options : Kwargs)
    (s0 s1 : State World) (self : Runner) :
  CIRunner.__init__ env TASKS false out options s0 = (Ok self, s1) →
  output_dir self = None ∧ tasks self = None ∧
  ∀ suite kwargs s,
    (∃ names, reads (CIRunner.setup_test_environment env self kwargs s).2
              = reads s ++ names ∧ Forall (eq "jenkins") names)
    ∧ (∃ names, reads (CIRunner.run_suite env self suite kwargs s).2
                = reads s ++ names ∧ Forall (eq "jenkins") names)
    ∧ (∃ names, reads (CIRunner.teardown_test_environment env self kwargs s).2
                = reads s ++ names ∧ Forall (eq "jenkins") names).
Proof.
  rewrite init_disabled.
  destruct (env (super_init options) (world s0)) as [[base|e] w]; [|done].
  intros [= <- _]. split; [done|]. split; [done|].
  intros suite kwargs s. repeat apply conj.
  - rewrite setup_test_environment_disabled by done. unfold call.
    destruct (env _ (world s)) as [[[]|e] w']; simpl.
    + exists ["jenkins"]. by repeat constructor.
    + exists []. by rewrite app_nil_r.
  - rewrite run_suite_disabled by done. unfold call. simpl.
    destruct (env _ (world s)) as [[v|e] w']; simpl;
      exists ["jenkins"]; by repeat constructor.
  - rewrite teardown_test_environment_disabled by done. unfold call.
    destruct (env _ (world s)) as [[[]|e] w']; simpl.
    + exists ["jenkins"]. by repeat constructor.
    + exists []. by rewrite app_nil_r.
Qed.

(** *** Construction in extended mode *)

Lemma instantiate_returns classes out options :
  (∀ cls, In cls classes → returns env (task_init cls out options)) →
  ∀ self ts0 s, tasks self = Some ts0 →
    ∃ r ts s',
      CIRunner.instantiate env classes out options self s = (Ok r, s')
      ∧ tasks r = Some (ts0 ++ ts)
      ∧ jenkins r = jenkins self ∧ output_dir r = output_dir self
      ∧ Forall2 (built_by env out options) classes ts
      ∧ trace s' = trace s
                   ++ map (λ cls, (task_init cls out options, None)) classes.
Proof.
  induction classes as [|cls classes IH]; intros Hret self ts0 s Hts.
  - exists self, [], s. simpl. rewrite !app_nil_r. by repeat split.
  - destruct (Hret cls (or_introl eq_refl) (world s)) as (t & w & Hw).
    destruct (IH (λ c Hc, Hret c (or_intror Hc))
                 (set_tasks self (ts0 ++ [t])) (ts0 ++ [t])
                 (read (after_call s (task_init cls out options) None w)
                       ["tasks"]) eq_refl)
      as (r & ts & s' & Hrun & Hr & Hj & Ho & Hbuilt & Htr).
    exists r, (t :: ts), s'. simpl.
    rewrite (bind_ok _ _ _ _ _ (call_ok _ _ _ _ _ Hw)), Hts.
    rewrite (bind_ok _ _ _ _ _ (read_attr_some _ _ _)).
    split; [exact Hrun|]. split; [by rewrite Hr, <- app_assoc|].
    split; [done|]. split; [done|]. split.
    + constructor; [|done]. by exists (world s), w.
    + rewrite Htr. simpl. by rewrite <- app_assoc.
Qed.

(** With jenkins=True, when every descriptor resolves and every call
    returns, __init__ leaves the output directory it was given and one
    instance per configured class, in the order of the configuration. *)
Lemma init_extended TASKS classes out options s :
  Forall2 (resolves_to env) TASKS classes →
  returns env (super_init options) →
  (∀ cls, In cls classes → returns env (task_init cls out options)) →
  ∃ r ts s',
    CIRunner.__init__ env TASKS true out options s = (Ok r, s')
    ∧ jenkins r = true ∧ output_dir r = Some out ∧ tasks r = Some ts
    ∧ Forall2 (built_by env out options) classes ts.
Proof.
  intros Hres Hsup Hcls. destruct (Hsup (world s)) as (base & w & Hw).
  unfold CIRunner.__init__. rewrite (bind_ok _ _ _ _ _ (call_ok _ _ _ _ _ Hw)).
  rewrite (bind_ok _ _ _ _ _ (read_attr_some _ _ _)). simpl.
  edestruct (get_tasks_loop_resolves env _ _ Hres []) as [s1 Hs1].
  unfold get_tasks. rewrite (bind_ok _ _ _ _ _ Hs1). simpl.
  edestruct (instantiate_returns classes out options Hcls) as
    (r & ts & s' & Hrun & Hr & Hj & Ho & Hbuilt & _); [|rewrite Hrun].
  { reflexivity. }
  by exists r, ts, s'.
Qed.

(** *** The legacy option list *)

Lemma get_task_options_loop_defined classes option_lists :
  Forall2 (λ cls ol, cls_option_list cls = Some ol) classes option_lists →
  ∀ acc (s : State World),
    get_task_options_loop classes acc s
    = (Ok (acc ++ concat option_lists), s).
Proof.
  induction 1 as [|cls ol classes option_lists Hcls _ IH]; intros acc s.
  - simpl. by rewrite app_nil_r.
  - simpl. unfold bind, lift, getattr_option_list. rewrite Hcls.
    by rewrite IH, <- app_assoc.
Qed.

(** C9, as the code has it. Under Django before 1.8, when every
    descriptor resolves and every task class defines option_list,
    CIRunner.option_list is the option lists of the task classes, in
    configuration order, followed by the --jenkins and --output-dir
    options; from Django 1.8 on the attribute is not created and no task
    class is looked at. *)
Theorem legacy_option_list
    (TASKS : list string) (OUTPUT_DIR : string) (django_VERSION : list Z)
    (classes : list TaskClass) (option_lists : list (list CliOption))
    (s : State World) :
  (tuple_lt django_VERSION [1; 8] = true →
   Forall2 (resolves_to env) TASKS classes →
   Forall2 (λ cls ol, cls_option_list cls = Some ol) classes option_lists →
   ∃ s',
     CIRunner.option_list env TASKS OUTPUT_DIR django_VERSION s
     = (Ok (Some (concat option_lists
                  ++ [jenkins_flag; output_dir_flag OUTPUT_DIR])), s'))
  ∧
  (tuple_lt django_VERSION [1; 8] = false →
   CIRunner.option_list env TASKS OUTPUT_DIR django_VERSION s = (Ok None, s)).
Proof.
  unfold CIRunner.option_list. split; intros ->; [|done].
  intros Hres Hopts. unfold get_task_options.
  destruct (get_tasks_loop_resolves env _ _ Hres [] s) as [s' Hs'].
  exists s'. unfold get_tasks, bind at 1, bind at 1. rewrite Hs'.
  by rewrite (get_task_options_loop_defined _ _ Hopts).
Qed.

End Lifecycle.

(** * The properties in the small concrete world *)

(** In the demo world [c] returns [v] and leaves the world as it was. *)
Ltac demo_returns v :=
  let w := fresh "w" in intros w; exists v, w; reflexivity.

(** In the demo world a hook returns unless its task is a [BrokenTask]. *)
Lemma demo_hooks_return p ts args kwargs :
  forallb (λ t, negb (String.eqb (cls_name (task_class t)) "BrokenTask")) ts
  = true →
  hooks_return Demo.env p ts args kwargs.
Proof.
  intros Hall task Hin w. unfold with_hook in Hin.
  apply filter_In in Hin as [Hin _].
  rewrite forallb_forall in Hall. specialize (Hall _ Hin).
  exists tt, w. simpl. by destruct (String.eqb _ _).
Qed.

Lemma demo_lint_resolves :
  resolves_to Demo.env "tasks.lint.LintTask" Demo.LintTask.
Proof.
  exists "tasks.lint", "LintTask". split; [reflexivity|].
  intros w. eexists _, w. split; reflexivity.
Qed.

Lemma demo_cov_resolves :
  resolves_to Demo.env "tasks.cov.CoverageTask" Demo.CoverageTask.
Proof.
  exists "tasks.cov", "CoverageTask". split; [reflexivity|].
  intros w. eexists _, w. split; reflexivity.
Qed.

Example demo_with_hook :
  with_hook SetupEnv [Demo.lint; Demo.cov] = [Demo.lint]
  ∧ with_hook BeforeSuite [Demo.lint; Demo.cov] = [Demo.lint; Demo.cov]
  ∧ with_hook AfterSuite [Demo.lint; Demo.cov] = [Demo.cov]
  ∧ with_hook TeardownEnv [Demo.lint; Demo.cov] = [Demo.cov].
Proof. repeat split; vm_compute; reflexivity. Qed.

Lemma get_tasks_preserves_order_witness :
  ∃ s', get_tasks Demo.env ["tasks.lint.LintTask"; "tasks.cov.CoverageTask"]
          Demo.s0
        = (Ok [Demo.LintTask; Demo.CoverageTask], s')
        ∧ length [Demo.LintTask; Demo.CoverageTask]
          = length ["tasks.lint.LintTask"; "tasks.cov.CoverageTask"].
Proof.
  apply (get_tasks_preserves_order Demo.env).
  repeat constructor; [apply demo_lint_resolves | apply demo_cov_resolves].
Defined.

Lemma get_tasks_error_messages_witness :
  (∃ text s',
     get_tasks Demo.env
       ["tasks.lint.LintTask"; "missing.X"; "tasks.cov.CoverageTask"] Demo.s0
     = (Raise (ImproperlyConfigured text), s')
     ∧ contains text "missing")
  ∧
  (∃ text s',
     get_tasks Demo.env
       ["tasks.lint.LintTask"; "tasks.cov.Nope"; "tasks.cov.CoverageTask"]
       Demo.s0
     = (Raise (ImproperlyConfigured text), s')
     ∧ contains text "tasks.cov" ∧ contains text "Nope").
Proof.
  split.
  - apply (proj1 (get_tasks_error_messages Demo.env
                    ["tasks.lint.LintTask"] ["tasks.cov.CoverageTask"]
                    "missing" "X" [Demo.LintTask] Demo.s0
                    (get_tasks Demo.env ["tasks.lint.LintTask"] Demo.s0).2
                    eq_refl eq_refl)
             "No module named missing" 0%nat).
    reflexivity.
  - apply (proj2 (get_tasks_error_messages Demo.env
                    ["tasks.lint.LintTask"] ["tasks.cov.CoverageTask"]
                    "tasks.cov" "Nope" [Demo.LintTask] Demo.s0
                    (get_tasks Demo.env ["tasks.lint.LintTask"] Demo.s0).2
                    eq_refl eq_refl)
             {| mod_name := "tasks.cov";
                mod_dict := {[ "CoverageTask" := Demo.CoverageTask;
                               "BrokenTask" := Demo.BrokenTask ]} |}
             0%nat);
      reflexivity.
Defined.

Lemma get_tasks_first_failure_aborts_witness :
  get_tasks Demo.env
    ["tasks.lint.LintTask"; "nodots"; "tasks.cov.CoverageTask"] Demo.s0
  = (Raise (ImproperlyConfigured "nodots isn't a task module"),
     {| world := 0%nat; trace := [(import_module "tasks.lint", None)];
        reads := [] |})
  ∧
  (get_tasks Demo.env
     ["tasks.lint.LintTask"; "missing.X"; "tasks.cov.CoverageTask"] Demo.s0
   = (Raise (ImproperlyConfigured
        ("Error importing task missing: " +:+ dq
         +:+ "No module named missing" +:+ dq)),
      {| world := 0%nat;
         trace := [ (import_module "tasks.lint", None);
                    (import_module "missing",
                     Some (ImportError "No module named missing")) ];
         reads := [] |})
   ∧ ∃ evs,
       [ (import_module "tasks.lint", None);
         (import_module "missing",
          Some (ImportError "No module named missing")) ]
       = [(import_module "tasks.lint", None)] ++ evs
       ∧ (length evs ≤ 1)%nat).
Proof.
  split.
  - apply (proj1 (get_tasks_first_failure_aborts Demo.env
                    ["tasks.lint.LintTask"] ["tasks.cov.CoverageTask"]
                    "nodots" [Demo.LintTask] Demo.s0
                    (get_tasks Demo.env ["tasks.lint.LintTask"] Demo.s0).2
                    eq_refl)).
    reflexivity.
  - apply (proj2 (get_tasks_first_failure_aborts Demo.env
                    ["tasks.lint.LintTask"] ["tasks.cov.CoverageTask"]
                    "missing.X" [Demo.LintTask] Demo.s0
                    (get_tasks Demo.env ["tasks.lint.LintTask"] Demo.s0).2
                    eq_refl)).
    reflexivity.
Defined.

Lemma hooks_dispatched_in_order_witness :
  (∃ s', CIRunner.setup_test_environment Demo.env (Demo.extended [Demo.lint; Demo.cov])
           Demo.kw Demo.s0 = (Ok tt, s')
         ∧ hooked SetupEnv (trace s')
           = hooked SetupEnv (trace Demo.s0)
             ++ with_hook SetupEnv [Demo.lint; Demo.cov])
  ∧
  (∃ result s',
     CIRunner.run_suite Demo.env (Demo.extended [Demo.lint; Demo.cov]) Demo.suite
       Demo.kw Demo.s0 = (Ok result, s')
     ∧ hooked BeforeSuite (trace s')
       = hooked BeforeSuite (trace Demo.s0)
         ++ with_hook BeforeSuite [Demo.lint; Demo.cov]
     ∧ hooked AfterSuite (trace s')
       = hooked AfterSuite (trace Demo.s0)
         ++ with_hook AfterSuite [Demo.lint; Demo.cov])
  ∧
  (∃ s', CIRunner.teardown_test_environment Demo.env
           (Demo.extended [Demo.lint; Demo.cov]) Demo.kw Demo.s0 = (Ok tt, s')
         ∧ hooked TeardownEnv (trace s')
           = hooked TeardownEnv (trace Demo.s0)
             ++ with_hook TeardownEnv [Demo.lint; Demo.cov]).
Proof.
  destruct (hooks_dispatched_in_order Demo.env
              (Demo.extended [Demo.lint; Demo.cov]) [Demo.lint; Demo.cov]
              (Some "reports") Demo.suite Demo.kw Demo.s0
              eq_refl eq_refl eq_refl)
    as (Hsetup & Hrun & Hteardown).
  split; [|split].
  - apply Hsetup.
    + demo_returns tt.
    + apply demo_hooks_return. reflexivity.
  - apply Hrun.
    + apply demo_hooks_return. reflexivity.
    + demo_returns (VObj 2).
    + intros result. demo_returns tt.
    + apply demo_hooks_return. reflexivity.
  - apply Hteardown.
    + demo_returns tt.
    + apply demo_hooks_return. reflexivity.
Defined.

Lemma run_suite_extended_sequence_witness :
  ∃ s1 result w2 s',
    dispatch Demo.env BeforeSuite [Demo.lint; Demo.cov] [Demo.suite] Demo.kw
      (read Demo.s0 ["jenkins"; "tasks"]) = (Ok tt, s1)
    ∧ Demo.env (text_test_runner_run
                  (xml_runner (Demo.extended [Demo.lint; Demo.cov]))
                  Demo.suite) (world s1)
      = (Ok result, w2)
    ∧ CIRunner.run_suite Demo.env (Demo.extended [Demo.lint; Demo.cov]) Demo.suite
        Demo.kw Demo.s0 = (Ok result, s')
    ∧ trace s'
      = trace Demo.s0
        ++ hook_events BeforeSuite
             (with_hook BeforeSuite [Demo.lint; Demo.cov]) [Demo.suite] Demo.kw
        ++ [ (text_test_runner_run
                {| tr_buffer := true; tr_resultclass := "XMLTestResult";
                   tr_verbosity := 2; tr_failfast := true |} Demo.suite, None);
             (dump_xml result (Some "reports"), None) ]
        ++ hook_events AfterSuite
             (with_hook AfterSuite [Demo.lint; Demo.cov]) [Demo.suite] Demo.kw.
Proof.
  apply (run_suite_extended_sequence Demo.env
           (Demo.extended [Demo.lint; Demo.cov]) [Demo.lint; Demo.cov]
           (Some "reports") Demo.suite Demo.kw Demo.s0 eq_refl eq_refl eq_refl).
  - apply demo_hooks_return. reflexivity.
  - demo_returns (VObj 2).
  - intros result. demo_returns tt.
  - apply demo_hooks_return. reflexivity.
Defined.

Lemma environment_hooks_after_wrapped_runner_witness :
  (∃ s', CIRunner.setup_test_environment Demo.env (Demo.extended [Demo.lint; Demo.cov])
           Demo.kw Demo.s0 = (Ok tt, s')
         ∧ trace s'
           = trace Demo.s0 ++ (super_setup_test_environment Demo.kw, None)
               :: map (λ task, (task_hook SetupEnv task [] Demo.kw, None))
                      (with_hook SetupEnv [Demo.lint; Demo.cov]))
  ∧
  (∃ s', CIRunner.teardown_test_environment Demo.env
           (Demo.extended [Demo.lint; Demo.cov]) Demo.kw Demo.s0 = (Ok tt, s')
         ∧ trace s'
           = trace Demo.s0 ++ (super_teardown_test_environment Demo.kw, None)
               :: map (λ task, (task_hook TeardownEnv task [] Demo.kw, None))
                      (with_hook TeardownEnv [Demo.lint; Demo.cov])).
Proof.
  destruct (environment_hooks_after_wrapped_runner Demo.env
              (Demo.extended [Demo.lint; Demo.cov]) [Demo.lint; Demo.cov]
              Demo.kw Demo.s0 eq_refl eq_refl)
    as (Hsetup & Hteardown).
  split.
  - apply Hsetup.
    + demo_returns tt.
    + apply demo_hooks_return. reflexivity.
  - apply Hteardown.
    + demo_returns tt.
    + apply demo_hooks_return. reflexivity.
Defined.

Lemma hook_exception_aborts_phase_witness :
  let ts := [Demo.lint; Demo.broken; Demo.cov] in
  ((CIRunner.setup_test_environment Demo.env (Demo.extended ts) Demo.kw Demo.s0).1
   = Raise Demo.boom
   ∧ ∃ pre,
       [ (super_setup_test_environment Demo.kw, None);
         (task_hook SetupEnv Demo.lint [] Demo.kw, None);
         (task_hook SetupEnv Demo.broken [] Demo.kw, Some Demo.boom) ]
       = pre ++ [(task_hook SetupEnv Demo.broken [] Demo.kw, Some Demo.boom)]
       ∧ clean pre)
  ∧
  ((CIRunner.run_suite Demo.env (Demo.extended ts) Demo.suite Demo.kw Demo.s0).1
   = Raise Demo.boom
   ∧ ∃ pre,
       [ (task_hook BeforeSuite Demo.lint [Demo.suite] Demo.kw, None);
         (task_hook BeforeSuite Demo.broken [Demo.suite] Demo.kw, Some Demo.boom) ]
       = pre ++ [(task_hook BeforeSuite Demo.broken [Demo.suite] Demo.kw,
                  Some Demo.boom)]
       ∧ clean pre)
  ∧
  ((CIRunner.teardown_test_environment Demo.env (Demo.extended ts) Demo.kw Demo.s0).1
   = Raise Demo.boom
   ∧ ∃ pre,
       [ (super_teardown_test_environment Demo.kw, None);
         (task_hook TeardownEnv Demo.broken [] Demo.kw, Some Demo.boom) ]
       = pre ++ [(task_hook TeardownEnv Demo.broken [] Demo.kw, Some Demo.boom)]
       ∧ clean pre).
Proof.
  intros ts. split; [|split].
  - apply (proj1 (hook_exception_aborts_phase Demo.env (Demo.extended ts)
                    Demo.suite Demo.kw Demo.s0 SetupEnv Demo.broken []
                    Demo.kw Demo.boom
                    [ (super_setup_test_environment Demo.kw, None);
                      (task_hook SetupEnv Demo.lint [] Demo.kw, None);
                      (task_hook SetupEnv Demo.broken [] Demo.kw, Some Demo.boom) ]
                    (or_intror (or_intror (or_introl eq_refl))))).
    vm_compute. reflexivity.
  - apply (proj1 (proj2 (hook_exception_aborts_phase Demo.env
                    (Demo.extended ts) Demo.suite Demo.kw Demo.s0 BeforeSuite
                    Demo.broken [Demo.suite] Demo.kw Demo.boom
                    [ (task_hook BeforeSuite Demo.lint [Demo.suite] Demo.kw,
                       None);
                      (task_hook BeforeSuite Demo.broken [Demo.suite] Demo.kw,
                       Some Demo.boom) ]
                    (or_intror (or_introl eq_refl))))).
    vm_compute. reflexivity.
  - apply (proj2 (proj2 (hook_exception_aborts_phase Demo.env
                    (Demo.extended ts) Demo.suite Demo.kw Demo.s0 TeardownEnv
                    Demo.broken [] Demo.kw Demo.boom
                    [ (super_teardown_test_environment Demo.kw, None);
                      (task_hook TeardownEnv Demo.broken [] Demo.kw,
                       Some Demo.boom) ]
                    (or_intror (or_introl eq_refl))))).
    vm_compute. reflexivity.
Defined.

Lemma disabled_mode_delegates_witness :
  (∃ ev, ev.1 = super_init Demo.kw
         ∧ trace (CIRunner.__init__ Demo.env ["tasks.lint.LintTask"] false (Some "reports")
                    Demo.kw Demo.s0).2 = trace Demo.s0 ++ [ev])
  ∧ (∀ r s', CIRunner.__init__ Demo.env ["tasks.lint.LintTask"] false (Some "reports")
               Demo.kw Demo.s0 = (Ok r, s') →
             jenkins r = false ∧ tasks r = None)
  ∧ same_effect (CIRunner.setup_test_environment Demo.env Demo.plain Demo.kw Demo.s0)
                (call Demo.env (super_setup_test_environment Demo.kw) Demo.s0)
  ∧ same_effect (CIRunner.run_suite Demo.env Demo.plain Demo.suite Demo.kw Demo.s0)
                (call Demo.env (super_run_suite Demo.suite Demo.kw) Demo.s0)
  ∧ same_effect (CIRunner.teardown_test_environment Demo.env Demo.plain Demo.kw Demo.s0)
                (call Demo.env (super_teardown_test_environment Demo.kw)
                   Demo.s0).
Proof.
  apply (disabled_mode_delegates Demo.env ["tasks.lint.LintTask"]
           (Some "reports") Demo.kw Demo.plain Demo.suite Demo.kw Demo.s0).
  reflexivity.
Defined.

Lemma disabled_mode_reads_only_the_flag_witness :
  output_dir Demo.plain = None ∧ tasks Demo.plain = None ∧
  ∀ suite kwargs s,
    (∃ names, reads (CIRunner.setup_test_environment Demo.env Demo.plain kwargs s).2
              = reads s ++ names ∧ Forall (eq "jenkins") names)
    ∧ (∃ names, reads (CIRunner.run_suite Demo.env Demo.plain suite kwargs s).2
                = reads s ++ names ∧ Forall (eq "jenkins") names)
    ∧ (∃ names, reads (CIRunner.teardown_test_environment Demo.env Demo.plain kwargs s).2
                = reads s ++ names ∧ Forall (eq "jenkins") names).
Proof.
  apply (disabled_mode_reads_only_the_flag Demo.env
           ["tasks.lint.LintTask"; "tasks.cov.CoverageTask"] (Some "reports")
           Demo.kw Demo.s0
           (CIRunner.__init__ Demo.env ["tasks.lint.LintTask"; "tasks.cov.CoverageTask"]
              false (Some "reports") Demo.kw Demo.s0).2).
  reflexivity.
Defined.

Lemma legacy_option_list_witness :
  (∃ s',
     CIRunner.option_list Demo.env
       ["tasks.lint.LintTask"; "tasks.cov.CoverageTask"] "reports" [1; 7; 11]
       Demo.s0
     = (Ok (Some (concat [Demo.lint_options; []]
                  ++ [jenkins_flag; output_dir_flag "reports"])), s'))
  ∧
  CIRunner.option_list Demo.env
    ["tasks.lint.LintTask"; "tasks.plain.PlainTask"] "reports" [1; 8; 0]
    Demo.s0
  = (Ok None, Demo.s0).
Proof.
  split.
  - apply (proj1 (legacy_option_list Demo.env
                    ["tasks.lint.LintTask"; "tasks.cov.CoverageTask"]
                    "reports" [1; 7; 11] [Demo.LintTask; Demo.CoverageTask]
                    [Demo.lint_options; []] Demo.s0)).
    + reflexivity.
    + repeat constructor; [apply demo_lint_resolves | apply demo_cov_resolves].
    + repeat constructor.
  - apply (proj2 (legacy_option_list Demo.env
                    ["tasks.lint.LintTask"; "tasks.plain.PlainTask"]
                    "reports" [1; 8; 0] [] [] Demo.s0)).
    reflexivity.
Defined.

(** * Where the code differs from the specification *)

(** C5 has teardown call the wrapped runner last.  In the demo world,
    with the coverage task (which has a teardown hook),
    teardown_test_environment calls the wrapped runner first and the
    task's hook after it; the last call is the hook. *)
Lemma teardown_calls_wrapped_runner_first :
  trace (CIRunner.teardown_test_environment Demo.env (Demo.extended [Demo.cov])
           Demo.kw Demo.s0).2
  = [ (super_teardown_test_environment Demo.kw, None);
      (task_hook TeardownEnv Demo.cov [] Demo.kw, None) ]
  ∧ last (trace (CIRunner.teardown_test_environment Demo.env
                          (Demo.extended [Demo.cov]) Demo.kw Demo.s0).2)
    ≠ Some (super_teardown_test_environment Demo.kw, None).
Proof. split; [vm_compute; reflexivity|]. vm_compute. discriminate. Qed.

(** C9 has a task class without option_list accepted in the legacy mode.
    In the demo world, under Django 1.7, with a configured class that does
    not define option_list, computing CIRunner.option_list raises
    AttributeError: no option list results. *)
Lemma legacy_option_list_needs_class_option_list :
  cls_option_list Demo.PlainTask = None
  ∧ (CIRunner.option_list Demo.env
       ["tasks.lint.LintTask"; "tasks.plain.PlainTask"] "reports" [1; 7; 11]
       Demo.s0).1
    = Raise (AttributeError
        "type object 'PlainTask' has no attribute 'option_list'")
  ∧ ¬ ∃ opts s',
        CIRunner.option_list Demo.env
          ["tasks.lint.LintTask"; "tasks.plain.PlainTask"] "reports"
          [1; 7; 11] Demo.s0
        = (Ok opts, s').
Proof.
  split; [reflexivity|]. split; [vm_compute; reflexivity|].
  intros (opts & s' & H). vm_compute in H. discriminate.
Qed.

(** * Further properties of the code *)

(** ** Splitting a descriptor *)

Lemma rsplit_last_none_inv sep s :
  rsplit_last sep s = None → has_sep sep s = false.
Proof.
  induction s as [|c s IH]; [done|]. simpl.
  destruct (rsplit_last sep s) as [[a b]|]; [done|].
  destruct (Ascii.eqb c sep); [done|]. intros _. by apply IH.
Qed.

Lemma rsplit_last_some sep s a b :
  rsplit_last sep s = Some (a, b) →
  s = a +:+ String sep b ∧ has_sep sep b = false.
Proof.
  revert a b. induction s as [|c s IH]; intros a b; [done|]. simpl.
  destruct (rsplit_last sep s) as [[a' b']|] eqn:E.
  - intros [= <- <-]. destruct (IH a' b' eq_refl) as [-> Hb]. by split.
  - destruct (Ascii.eqb c sep) eqn:Ec; [|done]. intros [= <- <-].
    apply Ascii.eqb_eq in Ec as ->. split; [done|].
    by apply rsplit_last_none_inv.
Qed.

Lemma has_sep_rsplit_last sep s :
  has_sep sep s = true → ∃ a b, rsplit_last sep s = Some (a, b).
Proof.
  intros H. destruct (rsplit_last sep s) as [[a b]|] eqn:E; [by eauto|].
  apply rsplit_last_none_inv in E. congruence.
Qed.

Section FurtherResolution.

Context {World : Type}.
Context (env : ∀ c : Call, World → Outcome (Ret c) * World).

Lemma resolve_task_ok_inv task_path s cls s1 :
  resolve_task env task_path s = (Ok cls, s1) →
  ∃ module classname mod_ w,
    rsplit_last "." task_path = Some (module, classname) ∧
    env (import_module module) (world s) = (Ok mod_, w) ∧
    mod_dict mod_ !! classname = Some cls ∧
    s1 = after_call s (import_module module) None w.
Proof.
  unfold resolve_task, bind, try_except, lift, rsplit1.
  destruct (rsplit_last "." task_path) as [[module classname]|]; simpl;
    [|done].
  unfold call.
  destruct (env (import_module module) (world s)) as [[mod_|e] w] eqn:Hw;
    simpl.
  - unfold getattr_module. destruct (mod_dict mod_ !! classname) eqn:Hcls;
      simpl; [|done].
    intros [= <- <-]. by exists module, classname, mod_, w.
  - by destruct e.
Qed.

Lemma resolve_task_raise_inv task_path s e s1 :
  resolve_task env task_path s = (Raise e, s1) →
  is_improperly_configured e = true
  ∨ ∃ module w,
      env (import_module module) (world s) = (Raise e, w)
      ∧ is_import_error e = false
      ∧ s1 = after_call s (import_module module) (Some e) w.
Proof.
  unfold resolve_task, bind, try_except, lift, rsplit1.
  destruct (rsplit_last "." task_path) as [[module classname]|]; simpl.
  - unfold call.
    destruct (env (import_module module) (world s)) as [[mod_|e0] w] eqn:Hw;
      simpl.
    + unfold getattr_module. destruct (mod_dict mod_ !! classname); simpl;
        [done|]. intros [= <- _]. by left.
    + destruct e0; simpl; intros [= <- <-];
        first [ by left | right; by exists module, w ].
  - intros [= <- _]. by left.
Qed.

Lemma resolve_task_makes_one_call task_path module classname s :
  rsplit_last "." task_path = Some (module, classname) →
  ∃ e w, (resolve_task env task_path s).2
         = after_call s (import_module module) e w.
Proof.
  intros Hsplit. unfold resolve_task, bind, try_except, lift, rsplit1.
  rewrite Hsplit. simpl. unfold call.
  destruct (env (import_module module) (world s)) as [[mod_|e] w]; simpl.
  - exists None, w. unfold getattr_module.
    by destruct (mod_dict mod_ !! classname).
  - exists (Some e), w. by destruct e.
Qed.

(** X4. A descriptor that contains a dot is split at its last dot: the
    class name is what follows it and has no dot, the module is all that
    precedes it, and resolving the descriptor makes exactly one call, the
    import of that module. *)
Theorem descriptor_split_at_last_dot (task_path : string) (s : State World) :
  has_sep "." task_path = true →
  ∃ module classname e w,
    task_path = module +:+ "." +:+ classname
    ∧ has_sep "." classname = false
    ∧ (resolve_task env task_path s).2
      = after_call s (import_module module) e w.
Proof.
  intros Hdot. destruct (has_sep_rsplit_last _ _ Hdot) as (m & c & Hsplit).
  destruct (rsplit_last_some _ _ _ _ Hsplit) as [Heq Hc].
  destruct (resolve_task_makes_one_call _ _ _ s Hsplit) as (e & w & Hs).
  by exists m, c, e, w.
Qed.

Lemma get_tasks_loop_ok_inv paths :
  ∀ acc s res s',
    get_tasks_loop env paths acc s = (Ok res, s') →
    ∃ classes,
      res = acc ++ classes
      ∧ Forall2 (found_at env) paths classes
      ∧ trace s' = trace s ++ import_events paths
      ∧ reads s' = reads s.
Proof.
  induction paths as [|p paths IH]; intros acc s res s'; simpl.
  - intros [= <- <-]. exists []. rewrite !app_nil_r. by repeat split.
  - unfold bind.
    destruct (resolve_task env p s) as [[cls|e] s1] eqn:Hp; [|done].
    intros Hrest.
    destruct (resolve_task_ok_inv _ _ _ _ Hp)
      as (m & c & mod_ & w & Hsplit & Hw & Hcls & ->).
    destruct (IH _ _ _ _ Hrest) as (classes & -> & Hall & Htr & Hrd).
    exists (cls :: classes). split; [by rewrite <- app_assoc|].
    split; [|split].
    + constructor; [|done]. exists m, c, mod_, (world s), w.
      split; [|done]. unfold rsplit1. by rewrite Hsplit.
    + rewrite Htr. unfold import_events, module_part. simpl.
      by rewrite Hsplit, <- app_assoc.
    + by rewrite Hrd.
Qed.

(** X3. Whatever the world does, when get_tasks returns it returns one
    class per descriptor, in order, each being the attribute its descriptor
    names in the module its descriptor names; it has then made exactly one
    call per descriptor, the import of its module, in configuration order,
    and has read no attribute of a runner. *)
Theorem get_tasks_sound
    (TASKS : list string) (s s' : State World) (classes : list TaskClass) :
  get_tasks env TASKS s = (Ok classes, s') →
  Forall2 (found_at env) TASKS classes
  ∧ length classes = length TASKS
  ∧ trace s' = trace s ++ import_events TASKS
  ∧ reads s' = reads s.
Proof.
  intros H. destruct (get_tasks_loop_ok_inv _ _ _ _ _ H)
    as (cs & -> & Hall & Htr & Hrd).
  split; [done|]. split; [|done]. symmetry. by eapply Forall2_length.
Qed.

Lemma get_tasks_loop_raise_inv paths :
  ∀ acc s e s',
    get_tasks_loop env paths acc s = (Raise e, s') →
    is_improperly_configured e = true
    ∨ ∃ module,
        last (trace s') = Some (import_module module, Some e)
        ∧ is_import_error e = false.
Proof.
  induction paths as [|p paths IH]; intros acc s e s'; simpl; [done|].
  unfold bind.
  destruct (resolve_task env p s) as [[cls|e0] s1] eqn:Hp.
  - apply IH.
  - intros [= <- <-].
    destruct (resolve_task_raise_inv _ _ _ _ Hp)
      as [Hic|(m & w & Hw & Hie & ->)]; [by left|].
    right. exists m. split; [|done]. simpl. apply last_snoc.
Qed.

(** X2. get_tasks raises nothing of its own but ImproperlyConfigured: any
    other exception that comes out of it is one that the import of a
    module raised, which was not an ImportError, and that import is the
    last call get_tasks made. *)
Theorem get_tasks_raises_only_configuration_errors
    (TASKS : list string) (s s' : State World) (e : Exn) :
  get_tasks env TASKS s = (Raise e, s') →
  is_improperly_configured e = true
  ∨ ∃ module,
      last (trace s') = Some (import_module module, Some e)
      ∧ is_import_error e = false.
Proof. apply get_tasks_loop_raise_inv. Qed.

Lemma resolve_task_other_exception task_path module classname s e w :
  rsplit1 "." task_path = [module; classname] →
  env (import_module module) (world s) = (Raise e, w) →
  is_import_error e = false →
  resolve_task env task_path s
  = (Raise e, after_call s (import_module module) (Some e) w).
Proof.
  intros Hsplit Himp He.
  unfold resolve_task, bind, try_except, lift.
  rewrite Hsplit. simpl. rewrite (call_raise _ _ _ _ _ Himp).
  by destruct e.
Qed.

(** X1. When the import of a descriptor's module raises an exception that
    is not an ImportError, get_tasks does not turn it into a configuration
    error: it raises that exception itself, and looks at no later
    descriptor. *)
Theorem get_tasks_other_import_exception_passes
    (pre post : list string) (module classname : string)
    (pre_classes : list TaskClass) (s s1 : State World) (e : Exn) (w : World) :
  has_sep "." classname = false →
  get_tasks env pre s = (Ok pre_classes, s1) →
  env (import_module module) (world s1) = (Raise e, w) →
  is_import_error e = false →
  get_tasks env (pre ++ (module +:+ "." +:+ classname) :: post) s
  = (Raise e, after_call s1 (import_module module) (Some e) w).
Proof.
  intros Hc Hpre Himp He. pose proof (rsplit1_join module _ Hc) as Hsplit.
  unfold get_tasks in *.
  rewrite get_tasks_loop_app, (bind_ok _ _ _ _ _ Hpre). simpl.
  by rewrite (bind_raise _ _ _ _ _
                (resolve_task_other_exception _ _ _ _ _ _ Hsplit Himp He)).
Qed.

End FurtherResolution.

(** ** Options, construction and argument registration *)

Section FurtherClassBodies.

Context {World : Type}.
Context (env : ∀ c : Call, World → Outcome (Ret c) * World).

Lemma get_tasks_resolves_trace TASKS classes s :
  Forall2 (resolves_to env) TASKS classes →
  ∃ s', get_tasks env TASKS s = (Ok classes, s')
        ∧ trace s' = trace s ++ import_events TASKS
        ∧ reads s' = reads s.
Proof.
  intros Hres. destruct (get_tasks_loop_resolves env _ _ Hres [] s) as [s' Hs'].
  exists s'. split; [exact Hs'|].
  by destruct (get_tasks_loop_ok_inv env _ _ _ _ _ Hs') as (_ & _ & _ & ? & ?).
Qed.

Lemma get_task_options_loop_missing pre cls post pre_options :
  Forall2 (λ c ol, cls_option_list c = Some ol) pre pre_options →
  cls_option_list cls = None →
  ∀ acc (s : State World),
    get_task_options_loop (pre ++ cls :: post) acc s
    = (Raise (AttributeError
         ("type object '" +:+ cls_name cls
          +:+ "' has no attribute 'option_list'")), s).
Proof.
  intros Hpre Hcls.
  induction Hpre as [|c ol pre pre_options Hc _ IH]; intros acc s; simpl.
  - unfold bind, lift, getattr_option_list. by rewrite Hcls.
  - unfold bind at 1, lift at 1, getattr_option_list at 1. rewrite Hc.
    apply IH.
Qed.

(** X5. When every descriptor resolves and some task class does not
    define option_list, get_task_options raises an AttributeError that
    names the first such class; it does so after having imported the
    module of every descriptor, those after that class included. *)
Theorem get_task_options_needs_every_option_list
    (TASKS : list string) (pre post : list TaskClass) (cls : TaskClass)
    (pre_options : list (list CliOption)) (s : State World) :
  Forall2 (resolves_to env) TASKS (pre ++ cls :: post) →
  Forall2 (λ c ol, cls_option_list c = Some ol) pre pre_options →
  cls_option_list cls = None →
  ∃ text s',
    get_task_options env TASKS s = (Raise (AttributeError text), s')
    ∧ contains text (cls_name cls)
    ∧ trace s' = trace s ++ import_events TASKS.
Proof.
  intros Hres Hpre Hcls.
  destruct (get_tasks_resolves_trace _ _ s Hres) as (s' & Hs' & Htr & _).
  eexists _, s'. split; [|split; [|exact Htr]].
  - unfold get_task_options. rewrite (bind_ok _ _ _ _ _ Hs').
    by apply get_task_options_loop_missing with pre_options.
  - apply contains_here.
Qed.

(** *** The version gate *)

(** X12. Whether the legacy option lists are built depends on the first
    two components of django.VERSION only: they are built exactly when the
    major version is below 1, or is 1 with a minor version below 8. *)
Theorem legacy_gate_reads_major_and_minor
    (TASKS : list string) (OUTPUT_DIR : string)
    (major minor : Z) (rest : list Z) :
  (tuple_lt (major :: minor :: rest) [1; 8] = true
   ↔ major < 1 ∨ (major = 1 ∧ minor < 8))
  ∧ CIRunner.option_list env TASKS OUTPUT_DIR (major :: minor :: rest)
    = CIRunner.option_list env TASKS OUTPUT_DIR [major; minor].
Proof.
  assert (Hnil : tuple_lt rest [] = false) by (by destruct rest).
  assert (Hgate : tuple_lt (major :: minor :: rest) [1; 8]
                  = tuple_lt [major; minor] [1; 8]).
  { simpl. by rewrite Hnil. }
  split.
  - simpl. rewrite Hnil.
    destruct (Z.ltb_spec major 1), (Z.ltb_spec 1 major),
      (Z.ltb_spec minor 8), (Z.ltb_spec 8 minor);
      split; intros Hyp; first [ done | lia | exfalso; lia ].
  - unfold CIRunner.option_list. by rewrite Hgate.
Qed.

(** X11. DiscoverCIRunner's class body, run on what CIRunner's class body
    produced under the same django.VERSION, never fails for want of
    CIRunner.option_list: it yields DiscoverRunner's options followed by
    CIRunner's when CIRunner has an option list, and no option list when
    CIRunner has none. *)
Theorem discover_option_list_composes
    (TASKS : list string) (OUTPUT_DIR : string) (django_VERSION : list Z)
    (DiscoverRunner_option_list : list CliOption)
    (ci : option (list CliOption)) (s s' s'' : State World) :
  CIRunner.option_list env TASKS OUTPUT_DIR django_VERSION s = (Ok ci, s') →
  DiscoverCIRunner.option_list django_VERSION DiscoverRunner_option_list ci s''
  = (Ok (app DiscoverRunner_option_list <$> ci), s'').
Proof.
  unfold CIRunner.option_list, DiscoverCIRunner.option_list.
  destruct (tuple_lt django_VERSION [1; 8]).
  - unfold bind at 1.
    destruct (get_task_options env TASKS s) as [[options|e] s1]; [|done].
    by intros [= <- _].
  - by intros [= <- _].
Qed.

(** *** Construction *)

Lemma instantiate_ok_inv classes out options :
  ∀ self ts0 s r s',
    tasks self = Some ts0 →
    CIRunner.instantiate env classes out options self s = (Ok r, s') →
    jenkins r = jenkins self ∧ output_dir r = output_dir self
    ∧ ∃ ts, tasks r = Some (ts0 ++ ts) ∧ length ts = length classes.
Proof.
  induction classes as [|cls classes IH]; intros self ts0 s r s' Hts; simpl.
  - intros [= <- _]. split; [done|]. split; [done|].
    exists []. by rewrite app_nil_r.
  - unfold bind at 1.
    destruct (call env (task_init cls out options) s) as [[t|e] s1]; [|done].
    rewrite Hts. rewrite (bind_ok _ _ _ _ _ (read_attr_some _ _ _)).
    intros Hrest.
    destruct (IH (set_tasks self (ts0 ++ [t])) (ts0 ++ [t]) _ _ _ eq_refl Hrest)
      as (Hj & Ho & ts & Hr & Hlen).
    split; [done|]. split; [done|].
    exists (t :: ts). split; [by rewrite Hr, <- app_assoc|].
    simpl. by rewrite Hlen.
Qed.

(** X8. Whatever the world does, a runner that __init__ returns is well
    formed: its jenkins flag is the argument; with the flag set it has the
    output directory it was given and a task list with one task per
    configured descriptor; with the flag off it has neither attribute. *)
Theorem init_returns_well_formed_runner
    (TASKS : list string) (jenkins_ : bool) (out : option string)
    (options : Kwargs) (s s' : State World) (r : Runner) :
  CIRunner.__init__ env TASKS jenkins_ out options s = (Ok r, s') →
  well_formed jenkins_ out (length TASKS) r.
Proof.
  unfold CIRunner.__init__, well_formed. unfold bind at 1.
  destruct (call env (super_init options) s) as [[base|e] s1]; [|done].
  rewrite (bind_ok _ _ _ _ _ (read_attr_some _ _ _)). simpl.
  destruct jenkins_.
  - unfold bind at 1.
    destruct (get_tasks env TASKS _) as [[classes|e] s2] eqn:Hget; [|done].
    intros Hinst.
    eapply instantiate_ok_inv in Hinst as (Hj & Ho & ts & Hts & Hlen);
      [|reflexivity].
    split; [done|]. split; [done|]. exists ts. split; [done|].
    destruct (get_tasks_loop_ok_inv env _ _ _ _ _ Hget) as (cs & Hcs & Hall & _).
    simpl in Hcs. subst cs. rewrite Hlen. symmetry. by eapply Forall2_length.
  - by intros [= <- _].
Qed.

(** X6. With jenkins=True, when every descriptor resolves and every call
    returns, __init__ calls the wrapped __init__ with the options, then
    imports the module of every descriptor, and only then calls the task
    classes, in configuration order, each with the output directory and
    the options the runner was given; the runner holds the instances in
    that order. *)
Theorem init_extended_sequence
    (TASKS : list string) (classes : list TaskClass) (out : option string)
    (options : Kwargs) (s : State World) :
  Forall2 (resolves_to env) TASKS classes →
  returns env (super_init options) →
  (∀ cls, In cls classes → returns env (task_init cls out options)) →
  ∃ r ts s',
    CIRunner.__init__ env TASKS true out options s = (Ok r, s')
    ∧ jenkins r = true ∧ output_dir r = Some out ∧ tasks r = Some ts
    ∧ Forall2 (built_by env out options) classes ts
    ∧ trace s'
      = trace s ++ (super_init options, None)
          :: import_events TASKS
          ++ map (λ cls, (task_init cls out options, None)) classes.
Proof.
  intros Hres Hsup Hcls. destruct (Hsup (world s)) as (base & w & Hw).
  unfold CIRunner.__init__.
  rewrite (bind_ok _ _ _ _ _ (call_ok _ _ _ _ _ Hw)).
  rewrite (bind_ok _ _ _ _ _ (read_attr_some _ _ _)). simpl.
  edestruct get_tasks_resolves_trace as (s1 & Hs1 & Htr1 & _); [exact Hres|].
  rewrite (bind_ok _ _ _ _ _ Hs1). simpl.
  edestruct (instantiate_returns env classes out options Hcls) as
    (r & ts & s' & Hrun & Hr & Hj & Ho & Hbuilt & Htr); [|rewrite Hrun].
  { reflexivity. }
  exists r, ts, s'. repeat (split; [done|]).
  rewrite Htr, Htr1. simpl. by rewrite <- !app_assoc.
Qed.

Lemma instantiate_raises pre cls post out options e :
  (∀ c, In c pre → returns env (task_init c out options)) →
  (∀ w, ∃ w', env (task_init cls out options) w = (Raise e, w')) →
  ∀ self ts0 s, tasks self = Some ts0 →
    ∃ s',
      CIRunner.instantiate env (pre ++ cls :: post) out options self s
      = (Raise e, s')
      ∧ trace s' = trace s
          ++ map (λ c, (task_init c out options, None)) pre
          ++ [(task_init cls out options, Some e)].
Proof.
  intros Hpre Hcls. induction pre as [|c pre IH]; intros self ts0 s Hts.
  - destruct (Hcls (world s)) as (w' & Hw'). eexists. simpl.
    rewrite (bind_raise _ _ _ _ _ (call_raise _ _ _ _ _ Hw')). by split.
  - destruct (Hpre c (or_introl eq_refl) (world s)) as (t & w & Hw).
    destruct (IH (λ c' Hc', Hpre c' (or_intror Hc'))
                 (set_tasks self (ts0 ++ [t])) (ts0 ++ [t])
                 (read (after_call s (task_init c out options) None w)
                       ["tasks"]) eq_refl)
      as (s' & Hrun & Htr).
    exists s'. simpl.
    rewrite (bind_ok _ _ _ _ _ (call_ok _ _ _ _ _ Hw)), Hts.
    rewrite (bind_ok _ _ _ _ _ (read_attr_some _ _ _)).
    split; [exact Hrun|]. rewrite Htr. simpl. by rewrite <- app_assoc.
Qed.

(** X7. With jenkins=True, when calling a task class raises, __init__
    raises that exception and returns no runner: the classes before it
    were called, in order, and none after it is. *)
Theorem init_constructor_failure_aborts
    (TASKS : list string) (pre post : list TaskClass) (cls : TaskClass)
    (out : option string) (options : Kwargs) (e : Exn) (s : State World) :
  Forall2 (resolves_to env) TASKS (pre ++ cls :: post) →
  returns env (super_init options) →
  (∀ c, In c pre → returns env (task_init c out options)) →
  (∀ w, ∃ w', env (task_init cls out options) w = (Raise e, w')) →
  ∃ s',
    CIRunner.__init__ env TASKS true out options s = (Raise e, s')
    ∧ trace s'
      = trace s ++ (super_init options, None)
          :: import_events TASKS
          ++ map (λ c, (task_init c out options, None)) pre
          ++ [(task_init cls out options, Some e)].
Proof.
  intros Hres Hsup Hpre Hcls. destruct (Hsup (world s)) as (base & w & Hw).
  unfold CIRunner.__init__.
  rewrite (bind_ok _ _ _ _ _ (call_ok _ _ _ _ _ Hw)).
  rewrite (bind_ok _ _ _ _ _ (read_attr_some _ _ _)). simpl.
  edestruct get_tasks_resolves_trace as (s1 & Hs1 & Htr1 & _); [exact Hres|].
  rewrite (bind_ok _ _ _ _ _ Hs1). simpl.
  edestruct (instantiate_raises pre cls post out options e Hpre Hcls)
    as (s' & Hrun & Htr); [|rewrite Hrun].
  { reflexivity. }
  exists s'. split; [done|].
  rewrite Htr, Htr1. simpl. by rewrite <- !app_assoc.
Qed.

End FurtherClassBodies.

(** ** Registering arguments *)

Section FurtherArguments.

Context {World : Type}.
Context (env : ∀ c : Call, World → Outcome (Ret c) * World).

Lemma add_arguments_loop_returns classes parser :
  (∀ cls, In cls (with_add_arguments classes) →
          returns env (task_add_arguments cls parser)) →
  ∀ s, ∃ w,
    for_ classes (λ task_cls,
      if cls_has_add_arguments task_cls
      then call env (task_add_arguments task_cls parser)
      else ret tt) s
    = (Ok tt,
       {| world := w;
          trace := trace s
            ++ map (λ cls, (task_add_arguments cls parser, None))
                   (with_add_arguments classes);
          reads := reads s |}).
Proof.
  unfold with_add_arguments.
  induction classes as [|cls classes IH]; intros Hret s.
  - exists (world s). simpl. unfold ret. rewrite app_nil_r. by destruct s.
  - simpl in *. destruct (cls_has_add_arguments cls) eqn:Hhas.
    + destruct (Hret cls (or_introl eq_refl) (world s)) as ([] & w1 & Hw1).
      rewrite (bind_ok _ _ _ _ _ (call_ok _ _ _ _ _ Hw1)).
      destruct (IH (λ c Hc, Hret c (or_intror Hc))
                   (after_call s (task_add_arguments cls parser) None w1))
        as [w ->].
      exists w. simpl. by rewrite <- app_assoc.
    + unfold bind at 1, ret at 1. apply IH, Hret.
Qed.

Lemma add_arguments_returns TASKS OUTPUT_DIR classes parser s :
  Forall2 (resolves_to env) TASKS classes →
  (∀ cls, In cls (with_add_arguments classes) →
          returns env (task_add_arguments cls parser)) →
  (∀ o, returns env (parser_add_argument parser o)) →
  ∃ w,
    CIRunner.add_arguments env TASKS OUTPUT_DIR parser s
    = (Ok tt,
       {| world := w;
          trace := trace s ++ import_events TASKS
            ++ map (λ cls, (task_add_arguments cls parser, None))
                   (with_add_arguments classes)
            ++ [ (parser_add_argument parser jenkins_flag, None);
                 (parser_add_argument parser (output_dir_flag OUTPUT_DIR),
                  None) ];
          reads := reads s |}).
Proof.
  intros Hres Htasks Hparser.
  destruct (get_tasks_resolves_trace env _ _ s Hres) as (s1 & Hs1 & Htr1 & Hrd1).
  destruct (add_arguments_loop_returns _ _ Htasks s1) as [w2 Hw2].
  destruct (Hparser jenkins_flag w2) as ([] & w3 & Hw3).
  destruct (Hparser (output_dir_flag OUTPUT_DIR) w3) as ([] & w4 & Hw4).
  exists w4. unfold CIRunner.add_arguments.
  rewrite (bind_ok _ _ _ _ _ Hs1), (bind_ok _ _ _ _ _ Hw2).
  unfold bind at 1, call at 1. simpl. rewrite Hw3.
  unfold call. simpl. rewrite Hw4. simpl.
  rewrite Htr1, Hrd1. f_equal. f_equal. by rewrite <- !app_assoc.
Qed.

(** X9. When every descriptor resolves and every call returns,
    CIRunner.add_arguments imports the module of every descriptor, then
    calls add_arguments(parser) on the task classes that have it, in
    configuration order, skipping the others without error, and only then
    adds --jenkins and then --output-dir to the parser. *)
Theorem add_arguments_sequence
    (TASKS : list string) (OUTPUT_DIR : string) (classes : list TaskClass)
    (parser : Value) (s : State World) :
  Forall2 (resolves_to env) TASKS classes →
  (∀ cls, In cls (with_add_arguments classes) →
          returns env (task_add_arguments cls parser)) →
  (∀ o, returns env (parser_add_argument parser o)) →
  ∃ s',
    CIRunner.add_arguments env TASKS OUTPUT_DIR parser s = (Ok tt, s')
    ∧ trace s'
      = trace s ++ import_events TASKS
        ++ map (λ cls, (task_add_arguments cls parser, None))
               (with_add_arguments classes)
        ++ [ (parser_add_argument parser jenkins_flag, None);
             (parser_add_argument parser (output_dir_flag OUTPUT_DIR), None) ].
Proof.
  intros Hres Htasks Hparser.
  destruct (add_arguments_returns _ OUTPUT_DIR _ _ s Hres Htasks Hparser)
    as [w ->].
  by eexists.
Qed.

(** X10. DiscoverCIRunner.add_arguments lets DiscoverRunner add its
    arguments to the parser before anything else: when every call returns,
    the parser receives DiscoverRunner's arguments, then those of the task
    classes, then --jenkins and --output-dir; and when
    DiscoverRunner.add_arguments raises, that is the only call made. *)
Theorem discover_add_arguments_sequence
    (TASKS : list string) (OUTPUT_DIR : string) (classes : list TaskClass)
    (parser : Value) (s : State World) :
  (returns env (discover_runner_add_arguments parser) →
   Forall2 (resolves_to env) TASKS classes →
   (∀ cls, In cls (with_add_arguments classes) →
           returns env (task_add_arguments cls parser)) →
   (∀ o, returns env (parser_add_argument parser o)) →
   ∃ s',
     DiscoverCIRunner.add_arguments env TASKS OUTPUT_DIR parser s = (Ok tt, s')
     ∧ trace s'
       = trace s ++ (discover_runner_add_arguments parser, None)
           :: import_events TASKS
           ++ map (λ cls, (task_add_arguments cls parser, None))
                  (with_add_arguments classes)
           ++ [ (parser_add_argument parser jenkins_flag, None);
                (parser_add_argument parser (output_dir_flag OUTPUT_DIR),
                 None) ])
  ∧
  (∀ e w,
     env (discover_runner_add_arguments parser) (world s) = (Raise e, w) →
     DiscoverCIRunner.add_arguments env TASKS OUTPUT_DIR parser s
     = (Raise e,
        after_call s (discover_runner_add_arguments parser) (Some e) w)).
Proof.
  split.
  - intros Hsup Hres Htasks Hparser.
    destruct (Hsup (world s)) as ([] & w1 & Hw1).
    unfold DiscoverCIRunner.add_arguments.
    rewrite (bind_ok _ _ _ _ _ (call_ok _ _ _ _ _ Hw1)).
    destruct (add_arguments_returns _ OUTPUT_DIR _ _
                (after_call s (discover_runner_add_arguments parser) None w1)
                Hres Htasks Hparser)
      as [w ->].
    eexists. split; [reflexivity|]. simpl. by rewrite <- app_assoc.
  - intros e w Hw. unfold DiscoverCIRunner.add_arguments.
    by rewrite (bind_raise _ _ _ _ _ (call_raise _ _ _ _ _ Hw)).
Qed.

End FurtherArguments.

(** ** The lifecycle methods under failure *)

Section FurtherLifecycle.

Context {World : Type}.
Context (env : ∀ c : Call, World → Outcome (Ret c) * World).

Local Abbreviation M := (M World).

(** X13. In each lifecycle method, whichever call raised (the wrapped
    runner's method, a hook, the text runner or dump_xml), the method
    raises that same exception, that call is the last call the method
    made, and no call before it had raised. *)
Theorem raising_call_ends_method
    (self : Runner) (suite : Value) (kwargs : Kwargs) (s : State World)
    (c : Call) (e : Exn) (evs : list Event) :
  In (c, Some e) evs →
  (trace (CIRunner.setup_test_environment env self kwargs s).2 = trace s ++ evs →
   (CIRunner.setup_test_environment env self kwargs s).1 = Raise e
   ∧ ∃ pre, evs = pre ++ [(c, Some e)] ∧ clean pre)
  ∧
  (trace (CIRunner.run_suite env self suite kwargs s).2 = trace s ++ evs →
   (CIRunner.run_suite env self suite kwargs s).1 = Raise e
   ∧ ∃ pre, evs = pre ++ [(c, Some e)] ∧ clean pre)
  ∧
  (trace (CIRunner.teardown_test_environment env self kwargs s).2
   = trace s ++ evs →
   (CIRunner.teardown_test_environment env self kwargs s).1 = Raise e
   ∧ ∃ pre, evs = pre ++ [(c, Some e)] ∧ clean pre).
Proof.
  intros Hin. split; [|split]; intros Htr.
  - by apply (raising_event_is_last _ _ _ _ _ (propagates_setup env _ _)).
  - by apply (raising_event_is_last _ _ _ _ _ (propagates_run_suite env _ _ _)).
  - by apply (raising_event_is_last _ _ _ _ _ (propagates_teardown env _ _)).
Qed.

(** X14. In extended mode, once the before hooks have returned: if the
    text runner raises, run_suite raises that exception and neither dumps
    anything nor calls an after hook; if the run returns and dump_xml
    raises, run_suite raises that exception, calls no after hook and does
    not return the result of the run. *)
Theorem run_suite_failure_skips_after_hooks
    (self : Runner) (ts : list Task) (out : option string)
    (suite : Value) (kwargs : Kwargs) (s s1 : State World) :
  jenkins self = true → tasks self = Some ts → output_dir self = Some out →
  dispatch env BeforeSuite ts [suite] kwargs (read s ["jenkins"; "tasks"])
  = (Ok tt, s1) →
  (∀ e w,
     env (text_test_runner_run (xml_runner self) suite) (world s1)
     = (Raise e, w) →
     ∃ s', CIRunner.run_suite env self suite kwargs s = (Raise e, s')
           ∧ trace s'
             = trace s1
               ++ [(text_test_runner_run (xml_runner self) suite, Some e)])
  ∧
  (∀ result w e w',
     env (text_test_runner_run (xml_runner self) suite) (world s1)
     = (Ok result, w) →
     env (dump_xml result out) w = (Raise e, w') →
     ∃ s', CIRunner.run_suite env self suite kwargs s = (Raise e, s')
           ∧ trace s'
             = trace s1
               ++ [ (text_test_runner_run (xml_runner self) suite, None);
                    (dump_xml result out, Some e) ]).
Proof.
  intros Hj Ht Ho Hbefore. unfold xml_runner.
  assert (Hstart : ∀ k : unit → M Value,
    bind (dispatch env BeforeSuite ts [suite] kwargs) k
      (read (read s ["jenkins"]) ["tasks"]) = k tt s1).
  { intros k. apply bind_ok. unfold read in *. simpl in *.
    by rewrite <- app_assoc. }
  split.
  - intros e w Hw. rewrite run_suite_dispatch.
    rewrite (bind_ok _ _ _ _ _ (read_attr_some _ _ _)), Hj, Ht.
    rewrite (bind_ok _ _ _ _ _ (read_attr_some _ _ _)), Hstart.
    rewrite (bind_ok _ _ _ _ _ (read_attr_some _ _ _)).
    rewrite (bind_ok _ _ _ _ _ (read_attr_some _ _ _)).
    unfold bind at 1, call at 1. simpl. rewrite Hw. by eexists.
  - intros result w e w' Hw Hw'. rewrite run_suite_dispatch.
    rewrite (bind_ok _ _ _ _ _ (read_attr_some _ _ _)), Hj, Ht.
    rewrite (bind_ok _ _ _ _ _ (read_attr_some _ _ _)), Hstart.
    rewrite (bind_ok _ _ _ _ _ (read_attr_some _ _ _)).
    rewrite (bind_ok _ _ _ _ _ (read_attr_some _ _ _)).
    unfold bind at 1, call at 1. simpl. rewrite Hw, Ho.
    rewrite (bind_ok _ _ _ _ _ (read_attr_some _ _ _)).
    unfold bind at 1, call at 1. simpl. rewrite Hw'.
    eexists. split; [reflexivity|]. simpl. by rewrite <- app_assoc.
Qed.

(** X16. On a runner whose jenkins flag is set but which has no task list
    (the flag was set after a construction with jenkins=False), run_suite
    raises AttributeError before making any call, and
    setup_test_environment and teardown_test_environment raise it after
    the wrapped runner's method has run. *)
Theorem flag_without_task_list_raises
    (self : Runner) (suite : Value) (kwargs : Kwargs) (s : State World) :
  jenkins self = true → tasks self = None →
  (∃ text,
     CIRunner.run_suite env self suite kwargs s
     = (Raise (AttributeError text), read s ["jenkins"; "tasks"])
     ∧ contains text "tasks")
  ∧
  (∀ w,
     env (super_setup_test_environment kwargs) (world s) = (Ok tt, w) →
     ∃ text s',
       CIRunner.setup_test_environment env self kwargs s
       = (Raise (AttributeError text), s')
       ∧ trace s' = trace s ++ [(super_setup_test_environment kwargs, None)])
  ∧
  (∀ w,
     env (super_teardown_test_environment kwargs) (world s) = (Ok tt, w) →
     ∃ text s',
       CIRunner.teardown_test_environment env self kwargs s
       = (Raise (AttributeError text), s')
       ∧ trace s' = trace s ++ [(super_teardown_test_environment kwargs, None)]).
Proof.
  intros Hj Ht. split; [|split].
  - eexists. split; [|apply contains_here].
    unfold CIRunner.run_suite.
    rewrite (bind_ok _ _ _ _ _ (read_attr_some _ _ _)), Hj, Ht.
    unfold bind, read_attr, read. simpl. by rewrite <- app_assoc.
  - intros w Hw. unfold CIRunner.setup_test_environment.
    rewrite (bind_ok _ _ _ _ _ (call_ok _ _ _ _ _ Hw)).
    rewrite (bind_ok _ _ _ _ _ (read_attr_some _ _ _)), Hj, Ht.
    unfold bind, read_attr. simpl. by eexists _, _.
  - intros w Hw. unfold CIRunner.teardown_test_environment.
    rewrite (bind_ok _ _ _ _ _ (call_ok _ _ _ _ _ Hw)).
    rewrite (bind_ok _ _ _ _ _ (read_attr_some _ _ _)), Hj, Ht.
    unfold bind, read_attr. simpl. by eexists _, _.
Qed.

(** *** Every call is one of the expected calls *)

Lemma calls_within_ret {A} P (a : A) : calls_within P (ret a : M A).
Proof. intros s. exists []. simpl. by rewrite app_nil_r. Qed.

Lemma calls_within_call (P : Call → Prop) c : P c → calls_within P (call env c).
Proof.
  intros HP s. unfold call. destruct (env c (world s)) as [o w]. simpl.
  exists [(c, raised o)]. split; [done|]. by repeat constructor.
Qed.

Lemma calls_within_bind {A B} P (m : M A) (k : A → M B) :
  calls_within P m → (∀ a, calls_within P (k a)) → calls_within P (bind m k).
Proof.
  intros Hm Hk s. destruct (Hm s) as (evs1 & Htr1 & H1). unfold bind.
  destruct (m s) as [[a|e] s1]; simpl in *; [|by exists evs1].
  destruct (Hk a s1) as (evs2 & Htr2 & H2).
  exists (evs1 ++ evs2). split; [by rewrite Htr2, Htr1, app_assoc|].
  by apply Forall_app.
Qed.

Lemma calls_within_read {A B} P name (v : option A) (k : A → M B) :
  (∀ a, v = Some a → calls_within P (k a)) →
  calls_within P (bind (read_attr name v) k).
Proof.
  intros Hk s. destruct v as [a|].
  - destruct (Hk a eq_refl (read s [name])) as (evs & Htr & Hall).
    exists evs. by rewrite (bind_ok _ _ _ _ _ (read_attr_some _ _ _)).
  - exists []. unfold bind, read_attr. simpl. by rewrite app_nil_r.
Qed.

Lemma calls_within_weaken {A} (P Q : Call → Prop) (m : M A) :
  (∀ c, P c → Q c) → calls_within P m → calls_within Q m.
Proof.
  intros HPQ Hm s. destruct (Hm s) as (evs & Htr & Hall).
  exists evs. split; [done|]. eapply Forall_impl; [exact Hall|].
  intros ev. apply HPQ.
Qed.

Lemma calls_within_dispatch p ts args kwargs :
  calls_within (hook_call_of p ts args kwargs)
    (dispatch env p ts args kwargs).
Proof.
  unfold dispatch.
  assert (Hsub : ∀ l, (∀ t, In t l → In t ts) →
    calls_within (hook_call_of p ts args kwargs)
      (for_ l (λ task,
         if hasattr task (hook_name p)
         then call env (task_hook p task args kwargs)
         else ret tt))).
  { induction l as [|t l IH]; intros Hl; simpl.
    - apply calls_within_ret.
    - apply calls_within_bind.
      + destruct (hasattr t (hook_name p)) eqn:Hhas;
          [|apply calls_within_ret].
        apply (calls_within_call _ (task_hook p t args kwargs)).
        exists t. split; [|done]. unfold with_hook. apply filter_In.
        split; [apply Hl; by left|done].
      + intros _. apply IH. intros t' Ht'. apply Hl. by right. }
  by apply Hsub.
Qed.

(** X15. In extended mode, whatever raises and wherever the method stops,
    a lifecycle method calls nothing but: the wrapped runner's method of
    the same name (setup and teardown only), hooks of its own phases on
    tasks of self.tasks that have them, with the arguments the method
    received, and, in run_suite, the text runner built from the runner's
    own settings and dump_xml to self.output_dir.  In particular it never
    imports a module, never calls a task class, never calls a hook on a
    task that lacks it, and run_suite never calls the wrapped run_suite. *)
Theorem lifecycle_makes_only_expected_calls
    (self : Runner) (ts : list Task) (out : option string)
    (suite : Value) (kwargs : Kwargs) :
  jenkins self = true → tasks self = Some ts → output_dir self = Some out →
  calls_within
    (λ c, c = super_setup_test_environment kwargs
          ∨ hook_call_of SetupEnv ts [] kwargs c)
    (CIRunner.setup_test_environment env self kwargs)
  ∧ calls_within
      (λ c, hook_call_of BeforeSuite ts [suite] kwargs c
            ∨ c = text_test_runner_run (xml_runner self) suite
            ∨ (∃ result, c = dump_xml result out)
            ∨ hook_call_of AfterSuite ts [suite] kwargs c)
      (CIRunner.run_suite env self suite kwargs)
  ∧ calls_within
      (λ c, c = super_teardown_test_environment kwargs
            ∨ hook_call_of TeardownEnv ts [] kwargs c)
      (CIRunner.teardown_test_environment env self kwargs).
Proof.
  intros Hj Ht Ho. split; [|split].
  - rewrite setup_test_environment_dispatch.
    apply calls_within_bind; [apply calls_within_call; by left|intros _].
    apply calls_within_read. intros j [= <-]. rewrite Hj.
    apply calls_within_read. intros ts' Hts'. rewrite Ht in Hts'.
    injection Hts' as <-.
    eapply calls_within_weaken; [|apply calls_within_dispatch]. by right.
  - rewrite run_suite_dispatch.
    apply calls_within_read. intros j [= <-]. rewrite Hj.
    apply calls_within_read. intros ts' Hts'. rewrite Ht in Hts'.
    injection Hts' as <-.
    apply calls_within_bind.
    { eapply calls_within_weaken; [|apply calls_within_dispatch]. by left. }
    intros _.
    apply calls_within_read. intros v [= <-].
    apply calls_within_read. intros f [= <-].
    apply calls_within_bind.
    { apply (calls_within_call _ (text_test_runner_run _ suite)).
      right. by left. }
    intros result.
    apply calls_within_read. intros out' Hout'. rewrite Ho in Hout'.
    injection Hout' as <-.
    apply calls_within_bind.
    { apply (calls_within_call _ (dump_xml result out)).
      right. right. left. by exists result. }
    intros _.
    apply calls_within_read. intros ts' Hts'. rewrite Ht in Hts'.
    injection Hts' as <-.
    apply calls_within_bind; [|intros _; apply calls_within_ret].
    eapply calls_within_weaken; [|apply calls_within_dispatch].
    intros c Hc. by do 3 right.
  - rewrite teardown_test_environment_dispatch.
    apply calls_within_bind; [apply calls_within_call; by left|intros _].
    apply calls_within_read. intros j [= <-]. rewrite Hj.
    apply calls_within_read. intros ts' Hts'. rewrite Ht in Hts'.
    injection Hts' as <-.
    eapply calls_within_weaken; [|apply calls_within_dispatch]. by right.
Qed.

End FurtherLifecycle.

(** ** No exception of the runner's own on a well-formed runner *)

Section FurtherSafety.

Context {World : Type}.
Context (env : ∀ c : Call, World → Outcome (Ret c) * World).

Local Abbreviation M := (M World).

Lemma transparent_ret {A} (a : A) : transparent (ret a : M A).
Proof. intros s. exists []. simpl. rewrite app_nil_r. split; [done|constructor]. Qed.

Lemma transparent_call c : transparent (call env c).
Proof.
  intros s. unfold call. destruct (env c (world s)) as [[v|e] w]; simpl.
  - exists [(c, None)]. split; [done|]. by repeat constructor.
  - exists [(c, Some e)]. split; [done|]. exists [], c.
    split; [done|constructor].
Qed.

Lemma transparent_bind {A B} (m : M A) (k : A → M B) :
  transparent m → (∀ a, transparent (k a)) → transparent (bind m k).
Proof.
  intros Hm Hk s. destruct (Hm s) as (evs1 & Htr1 & H1). unfold bind.
  destruct (m s) as [[a|e] s1]; simpl in *; [|by exists evs1].
  destruct (Hk a s1) as (evs2 & Htr2 & H2).
  exists (evs1 ++ evs2). split; [by rewrite Htr2, Htr1, app_assoc|].
  destruct (k a s1).1 as [b|e].
  - by apply Forall_app.
  - destruct H2 as (pre & c & -> & Hpre).
    exists (evs1 ++ pre), c. split; [by rewrite app_assoc|].
    by apply Forall_app.
Qed.

Lemma transparent_read {A B} name (a : A) (k : A → M B) :
  transparent (k a) → transparent (bind (read_attr name (Some a)) k).
Proof.
  intros Hk s. destruct (Hk (read s [name])) as (evs & Htr & Hcase).
  exists evs. by rewrite (bind_ok _ _ _ _ _ (read_attr_some _ _ _)).
Qed.

Lemma transparent_dispatch p ts args kwargs :
  transparent (dispatch env p ts args kwargs).
Proof.
  unfold dispatch. induction ts as [|t ts IH]; simpl.
  - apply transparent_ret.
  - apply transparent_bind; [|intros _; apply IH].
    destruct (hasattr t (hook_name p));
      [exact (transparent_call _) | apply transparent_ret].
Qed.

(** X17. On a well-formed runner (one that __init__ returned), whatever a
    lifecycle method raises was raised by the last call it made: the
    method raises no exception of its own, so no AttributeError for a
    missing tasks or output_dir attribute, with the jenkins flag set or
    not. *)
Theorem lifecycle_raises_only_what_a_call_raised
    (jenkins_ : bool) (out : option string) (n : nat) (self : Runner)
    (suite : Value) (kwargs : Kwargs) :
  well_formed jenkins_ out n self →
  transparent (CIRunner.setup_test_environment env self kwargs)
  ∧ transparent (CIRunner.run_suite env self suite kwargs)
  ∧ transparent (CIRunner.teardown_test_environment env self kwargs).
Proof.
  intros [Hj Hwf].
  rewrite setup_test_environment_dispatch, run_suite_dispatch,
    teardown_test_environment_dispatch.
  destruct jenkins_.
  - destruct Hwf as (Ho & ts & Ht & _). rewrite Hj, Ht, Ho.
    split; [|split].
    + apply transparent_bind; [exact (transparent_call _)|intros _].
      do 2 apply transparent_read. apply transparent_dispatch.
    + do 2 apply transparent_read.
      apply transparent_bind; [apply transparent_dispatch|intros _].
      do 2 apply transparent_read.
      apply transparent_bind; [exact (transparent_call _)|intros result].
      apply transparent_read.
      apply transparent_bind; [exact (transparent_call _)|intros _].
      apply transparent_read.
      apply transparent_bind; [apply transparent_dispatch|intros _].
      apply transparent_ret.
    + apply transparent_bind; [exact (transparent_call _)|intros _].
      do 2 apply transparent_read. apply transparent_dispatch.
  - rewrite Hj. split; [|split].
    + apply transparent_bind; [exact (transparent_call _)|intros _].
      apply transparent_read. apply transparent_ret.
    + apply transparent_read. exact (transparent_call _).
    + apply transparent_bind; [exact (transparent_call _)|intros _].
      apply transparent_read. apply transparent_ret.
Qed.

End FurtherSafety.

(** * The further properties in the concrete worlds *)

Lemma demo_plain_resolves :
  resolves_to Demo.env "tasks.plain.PlainTask" Demo.PlainTask.
Proof.
  exists "tasks.plain", "PlainTask". split; [reflexivity|].
  intros w. eexists _, w. split; reflexivity.
Qed.

Lemma faulty_lint_resolves :
  resolves_to Faulty.env "tasks.lint.LintTask" Demo.LintTask.
Proof.
  exists "tasks.lint", "LintTask". split; [reflexivity|].
  intros w. eexists _, w. split; reflexivity.
Qed.

Lemma faulty_cov_resolves :
  resolves_to Faulty.env "tasks.cov.CoverageTask" Demo.CoverageTask.
Proof.
  exists "tasks.cov", "CoverageTask". split; [reflexivity|].
  intros w. eexists _, w. split; reflexivity.
Qed.

Lemma faulty_broken_resolves :
  resolves_to Faulty.env "tasks.cov.BrokenTask" Demo.BrokenTask.
Proof.
  exists "tasks.cov", "BrokenTask". split; [reflexivity|].
  intros w. eexists _, w. split; reflexivity.
Qed.

(** In the demo world a task class that is called returns an instance. *)
Lemma demo_task_init_returns cls out options :
  returns Demo.env (task_init cls out options).
Proof. intros w. by eexists _, _. Qed.

Lemma get_tasks_other_import_exception_passes_witness :
  get_tasks Faulty.env
    ["tasks.lint.LintTask"; "tasks.syntax.Task"; "tasks.cov.CoverageTask"]
    Demo.s0
  = (Raise Faulty.syntax_error,
     {| world := 0%nat;
        trace := [ (import_module "tasks.lint", None);
                   (import_module "tasks.syntax", Some Faulty.syntax_error) ];
        reads := [] |}).
Proof.
  apply (get_tasks_other_import_exception_passes Faulty.env
           ["tasks.lint.LintTask"] ["tasks.cov.CoverageTask"]
           "tasks.syntax" "Task" [Demo.LintTask] Demo.s0
           (get_tasks Faulty.env ["tasks.lint.LintTask"] Demo.s0).2
           Faulty.syntax_error 0%nat);
    reflexivity.
Defined.

Lemma get_tasks_raises_only_configuration_errors_witness :
  (is_improperly_configured Faulty.syntax_error = true
   ∨ ∃ module,
       last [ (import_module "tasks.lint", None);
              (import_module "tasks.syntax", Some Faulty.syntax_error) ]
       = Some (import_module module, Some Faulty.syntax_error)
       ∧ is_import_error Faulty.syntax_error = false)
  ∧
  (is_improperly_configured
     (ImproperlyConfigured "nodots isn't a task module") = true
   ∨ ∃ module,
       last (trace Demo.s0)
       = Some (import_module module,
               Some (ImproperlyConfigured "nodots isn't a task module"))
       ∧ is_import_error
           (ImproperlyConfigured "nodots isn't a task module") = false).
Proof.
  split.
  - apply (get_tasks_raises_only_configuration_errors Faulty.env
             ["tasks.lint.LintTask"; "tasks.syntax.Task"] Demo.s0
             {| world := 0%nat;
                trace := [ (import_module "tasks.lint", None);
                           (import_module "tasks.syntax",
                            Some Faulty.syntax_error) ];
                reads := [] |}).
    reflexivity.
  - apply (get_tasks_raises_only_configuration_errors Demo.env
             ["nodots"] Demo.s0 Demo.s0).
    reflexivity.
Defined.

Lemma get_tasks_sound_witness :
  Forall2 (found_at Demo.env)
    ["tasks.lint.LintTask"; "tasks.cov.CoverageTask"]
    [Demo.LintTask; Demo.CoverageTask]
  ∧ length [Demo.LintTask; Demo.CoverageTask]
    = length ["tasks.lint.LintTask"; "tasks.cov.CoverageTask"]
  ∧ [ (import_module "tasks.lint", None); (import_module "tasks.cov", None) ]
    = trace Demo.s0
      ++ import_events ["tasks.lint.LintTask"; "tasks.cov.CoverageTask"]
  ∧ @nil string = reads Demo.s0.
Proof.
  apply (get_tasks_sound Demo.env
           ["tasks.lint.LintTask"; "tasks.cov.CoverageTask"] Demo.s0
           {| world := 0%nat;
              trace := [ (import_module "tasks.lint", None);
                         (import_module "tasks.cov", None) ];
              reads := [] |}
           [Demo.LintTask; Demo.CoverageTask]).
  reflexivity.
Defined.

Lemma descriptor_split_at_last_dot_witness :
  ∃ module classname e w,
    "pkg.tasks.lint.LintTask" = module +:+ "." +:+ classname
    ∧ has_sep "." classname = false
    ∧ (resolve_task Demo.env "pkg.tasks.lint.LintTask" Demo.s0).2
      = after_call Demo.s0 (import_module module) e w.
Proof.
  apply (descriptor_split_at_last_dot Demo.env "pkg.tasks.lint.LintTask"
           Demo.s0).
  reflexivity.
Defined.

Lemma get_task_options_needs_every_option_list_witness :
  ∃ text s',
    get_task_options Demo.env
      ["tasks.lint.LintTask"; "tasks.plain.PlainTask"; "tasks.cov.CoverageTask"]
      Demo.s0
    = (Raise (AttributeError text), s')
    ∧ contains text "PlainTask"
    ∧ trace s'
      = trace Demo.s0
        ++ import_events ["tasks.lint.LintTask"; "tasks.plain.PlainTask";
                          "tasks.cov.CoverageTask"].
Proof.
  apply (get_task_options_needs_every_option_list Demo.env
           ["tasks.lint.LintTask"; "tasks.plain.PlainTask";
            "tasks.cov.CoverageTask"]
           [Demo.LintTask] [Demo.CoverageTask] Demo.PlainTask
           [Demo.lint_options] Demo.s0).
  - repeat constructor;
      [ apply demo_lint_resolves | apply demo_plain_resolves
      | apply demo_cov_resolves ].
  - repeat constructor.
  - reflexivity.
Defined.

Lemma discover_option_list_composes_witness :
  DiscoverCIRunner.option_list [1; 7; 11] [jenkins_flag]
    (Some (Demo.lint_options ++ [jenkins_flag; output_dir_flag "reports"]))
    Demo.s0
  = (Ok (app [jenkins_flag]
           <$> Some (Demo.lint_options
                     ++ [jenkins_flag; output_dir_flag "reports"])),
     Demo.s0).
Proof.
  apply (discover_option_list_composes Demo.env
           ["tasks.lint.LintTask"; "tasks.cov.CoverageTask"] "reports"
           [1; 7; 11] [jenkins_flag]
           (Some (Demo.lint_options ++ [jenkins_flag; output_dir_flag "reports"]))
           Demo.s0
           (CIRunner.option_list Demo.env
              ["tasks.lint.LintTask"; "tasks.cov.CoverageTask"] "reports"
              [1; 7; 11] Demo.s0).2
           Demo.s0).
  reflexivity.
Defined.

Lemma init_returns_well_formed_runner_witness :
  well_formed true (Some "reports")
    (length ["tasks.lint.LintTask"; "tasks.cov.CoverageTask"])
    (Demo.extended [Demo.lint; Demo.cov]).
Proof.
  apply (init_returns_well_formed_runner Demo.env
           ["tasks.lint.LintTask"; "tasks.cov.CoverageTask"] true
           (Some "reports") Demo.kw Demo.s0
           (CIRunner.__init__ Demo.env
              ["tasks.lint.LintTask"; "tasks.cov.CoverageTask"] true
              (Some "reports") Demo.kw Demo.s0).2).
  vm_compute. reflexivity.
Defined.

Lemma init_extended_sequence_witness :
  ∃ r ts s',
    CIRunner.__init__ Demo.env
      ["tasks.lint.LintTask"; "tasks.cov.CoverageTask"] true (Some "reports")
      Demo.kw Demo.s0 = (Ok r, s')
    ∧ jenkins r = true ∧ output_dir r = Some (Some "reports")
    ∧ tasks r = Some ts
    ∧ Forall2 (built_by Demo.env (Some "reports") Demo.kw)
        [Demo.LintTask; Demo.CoverageTask] ts
    ∧ trace s'
      = trace Demo.s0 ++ (super_init Demo.kw, None)
          :: import_events ["tasks.lint.LintTask"; "tasks.cov.CoverageTask"]
          ++ map (λ cls, (task_init cls (Some "reports") Demo.kw, None))
               [Demo.LintTask; Demo.CoverageTask].
Proof.
  apply (init_extended_sequence Demo.env
           ["tasks.lint.LintTask"; "tasks.cov.CoverageTask"]
           [Demo.LintTask; Demo.CoverageTask] (Some "reports") Demo.kw Demo.s0).
  - repeat constructor; [apply demo_lint_resolves | apply demo_cov_resolves].
  - intros w. by eexists _, _.
  - intros cls _. apply demo_task_init_returns.
Defined.

Lemma init_constructor_failure_aborts_witness :
  ∃ s',
    CIRunner.__init__ Faulty.env
      ["tasks.lint.LintTask"; "tasks.cov.BrokenTask"; "tasks.cov.CoverageTask"]
      true (Some "reports") Demo.kw Demo.s0
    = (Raise Faulty.type_error, s')
    ∧ trace s'
      = trace Demo.s0 ++ (super_init Demo.kw, None)
          :: import_events ["tasks.lint.LintTask"; "tasks.cov.BrokenTask";
                            "tasks.cov.CoverageTask"]
          ++ map (λ c, (task_init c (Some "reports") Demo.kw, None))
               [Demo.LintTask]
          ++ [(task_init Demo.BrokenTask (Some "reports") Demo.kw,
               Some Faulty.type_error)].
Proof.
  apply (init_constructor_failure_aborts Faulty.env
           ["tasks.lint.LintTask"; "tasks.cov.BrokenTask";
            "tasks.cov.CoverageTask"]
           [Demo.LintTask] [Demo.CoverageTask] Demo.BrokenTask
           (Some "reports") Demo.kw Faulty.type_error Demo.s0).
  - repeat constructor;
      [ apply faulty_lint_resolves | apply faulty_broken_resolves
      | apply faulty_cov_resolves ].
  - intros w. by eexists _, _.
  - intros c [<-|[]] w. by eexists _, _.
  - intros w. by exists w.
Defined.

Lemma add_arguments_sequence_witness :
  ∃ s',
    CIRunner.add_arguments Demo.env
      ["tasks.lint.LintTask"; "tasks.cov.CoverageTask"; "tasks.plain.PlainTask"]
      "reports" Faulty.parser Demo.s0 = (Ok tt, s')
    ∧ trace s'
      = trace Demo.s0
        ++ import_events ["tasks.lint.LintTask"; "tasks.cov.CoverageTask";
                          "tasks.plain.PlainTask"]
        ++ map (λ cls, (task_add_arguments cls Faulty.parser, None))
             (with_add_arguments
                [Demo.LintTask; Demo.CoverageTask; Demo.PlainTask])
        ++ [ (parser_add_argument Faulty.parser jenkins_flag, None);
             (parser_add_argument Faulty.parser (output_dir_flag "reports"),
              None) ].
Proof.
  apply (add_arguments_sequence Demo.env
           ["tasks.lint.LintTask"; "tasks.cov.CoverageTask";
            "tasks.plain.PlainTask"]
           "reports" [Demo.LintTask; Demo.CoverageTask; Demo.PlainTask]
           Faulty.parser Demo.s0).
  - repeat constructor;
      [ apply demo_lint_resolves | apply demo_cov_resolves
      | apply demo_plain_resolves ].
  - intros cls _. demo_returns tt.
  - intros o. demo_returns tt.
Defined.

Example demo_with_add_arguments :
  with_add_arguments [Demo.LintTask; Demo.CoverageTask; Demo.PlainTask]
  = [Demo.LintTask; Demo.PlainTask].
Proof. reflexivity. Qed.

Lemma discover_add_arguments_sequence_witness :
  (∃ s',
     DiscoverCIRunner.add_arguments Demo.env
       ["tasks.lint.LintTask"; "tasks.cov.CoverageTask"] "reports"
       Faulty.parser Demo.s0 = (Ok tt, s')
     ∧ trace s'
       = trace Demo.s0 ++ (discover_runner_add_arguments Faulty.parser, None)
           :: import_events ["tasks.lint.LintTask"; "tasks.cov.CoverageTask"]
           ++ map (λ cls, (task_add_arguments cls Faulty.parser, None))
                (with_add_arguments [Demo.LintTask; Demo.CoverageTask])
           ++ [ (parser_add_argument Faulty.parser jenkins_flag, None);
                (parser_add_argument Faulty.parser (output_dir_flag "reports"),
                 None) ])
  ∧
  DiscoverCIRunner.add_arguments Faulty.env
    ["tasks.lint.LintTask"; "tasks.cov.CoverageTask"] "reports" VNone Demo.s0
  = (Raise Faulty.parser_error,
     after_call Demo.s0 (discover_runner_add_arguments VNone)
       (Some Faulty.parser_error) 0%nat).
Proof.
  split.
  - apply (proj1 (discover_add_arguments_sequence Demo.env
                    ["tasks.lint.LintTask"; "tasks.cov.CoverageTask"]
                    "reports" [Demo.LintTask; Demo.CoverageTask]
                    Faulty.parser Demo.s0)).
    + demo_returns tt.
    + repeat constructor; [apply demo_lint_resolves | apply demo_cov_resolves].
    + intros cls _. demo_returns tt.
    + intros o. demo_returns tt.
  - apply (proj2 (discover_add_arguments_sequence Faulty.env
                    ["tasks.lint.LintTask"; "tasks.cov.CoverageTask"]
                    "reports" [] VNone Demo.s0)).
    reflexivity.
Defined.

Lemma raising_call_ends_method_witness :
  let ts := [Demo.lint; Demo.cov] in
  ((CIRunner.setup_test_environment Faulty.env (Demo.extended ts) []
      Demo.s0).1 = Raise Faulty.db_error
   ∧ ∃ pre,
       [(super_setup_test_environment [], Some Faulty.db_error)]
       = pre ++ [(super_setup_test_environment [], Some Faulty.db_error)]
       ∧ clean pre)
  ∧
  ((CIRunner.run_suite Faulty.env (Demo.extended ts) VNone Demo.kw
      Demo.s0).1 = Raise Faulty.suite_error
   ∧ ∃ pre,
       [ (task_hook BeforeSuite Demo.lint [VNone] Demo.kw, None);
         (task_hook BeforeSuite Demo.cov [VNone] Demo.kw, None);
         (text_test_runner_run (xml_runner (Demo.extended ts)) VNone,
          Some Faulty.suite_error) ]
       = pre ++ [(text_test_runner_run (xml_runner (Demo.extended ts)) VNone,
                  Some Faulty.suite_error)]
       ∧ clean pre)
  ∧
  ((CIRunner.teardown_test_environment Faulty.env (Demo.extended ts) []
      Demo.s0).1 = Raise Faulty.db_error
   ∧ ∃ pre,
       [(super_teardown_test_environment [], Some Faulty.db_error)]
       = pre ++ [(super_teardown_test_environment [], Some Faulty.db_error)]
       ∧ clean pre).
Proof.
  intros ts. split; [|split].
  - apply (proj1 (raising_call_ends_method Faulty.env (Demo.extended ts)
                    VNone [] Demo.s0 (super_setup_test_environment [])
                    Faulty.db_error
                    [(super_setup_test_environment [], Some Faulty.db_error)]
                    (or_introl eq_refl))).
    vm_compute. reflexivity.
  - apply (proj1 (proj2 (raising_call_ends_method Faulty.env
                    (Demo.extended ts) VNone Demo.kw Demo.s0
                    (text_test_runner_run (xml_runner (Demo.extended ts)) VNone)
                    Faulty.suite_error
                    [ (task_hook BeforeSuite Demo.lint [VNone] Demo.kw, None);
                      (task_hook BeforeSuite Demo.cov [VNone] Demo.kw, None);
                      (text_test_runner_run (xml_runner (Demo.extended ts))
                         VNone, Some Faulty.suite_error) ]
                    (or_intror (or_intror (or_introl eq_refl)))))).
    vm_compute. reflexivity.
  - apply (proj2 (proj2 (raising_call_ends_method Faulty.env
                    (Demo.extended ts) VNone [] Demo.s0
                    (super_teardown_test_environment [])
                    Faulty.db_error
                    [(super_teardown_test_environment [], Some Faulty.db_error)]
                    (or_introl eq_refl)))).
    vm_compute. reflexivity.
Defined.

Lemma run_suite_failure_skips_after_hooks_witness :
  let ts := [Demo.lint; Demo.cov] in
  (∃ s',
     CIRunner.run_suite Faulty.env (Demo.extended ts) VNone Demo.kw Demo.s0
     = (Raise Faulty.suite_error, s')
     ∧ trace s'
       = hook_events BeforeSuite ts [VNone] Demo.kw
         ++ [(text_test_runner_run (xml_runner (Demo.extended ts)) VNone,
              Some Faulty.suite_error)])
  ∧
  (∃ s',
     CIRunner.run_suite Faulty.env (Faulty.no_directory ts) Demo.suite Demo.kw
       Demo.s0
     = (Raise Faulty.path_error, s')
     ∧ trace s'
       = hook_events BeforeSuite ts [Demo.suite] Demo.kw
         ++ [ (text_test_runner_run (xml_runner (Faulty.no_directory ts))
                 Demo.suite, None);
              (dump_xml (VObj 2) None, Some Faulty.path_error) ]).
Proof.
  intros ts. split.
  - apply (proj1 (run_suite_failure_skips_after_hooks Faulty.env
                    (Demo.extended ts) ts (Some "reports") VNone Demo.kw
                    Demo.s0
                    {| world := 0%nat;
                       trace := hook_events BeforeSuite ts [VNone] Demo.kw;
                       reads := ["jenkins"; "tasks"] |}
                    eq_refl eq_refl eq_refl ltac:(vm_compute; reflexivity))
             Faulty.suite_error 0%nat).
    reflexivity.
  - apply (proj2 (run_suite_failure_skips_after_hooks Faulty.env
                    (Faulty.no_directory ts) ts None Demo.suite Demo.kw
                    Demo.s0
                    {| world := 0%nat;
                       trace := hook_events BeforeSuite ts [Demo.suite] Demo.kw;
                       reads := ["jenkins"; "tasks"] |}
                    eq_refl eq_refl eq_refl ltac:(vm_compute; reflexivity))
             (VObj 2) 0%nat Faulty.path_error 0%nat);
      reflexivity.
Defined.

Lemma flag_without_task_list_raises_witness :
  (∃ text,
     CIRunner.run_suite Demo.env Faulty.flipped Demo.suite Demo.kw Demo.s0
     = (Raise (AttributeError text), read Demo.s0 ["jenkins"; "tasks"])
     ∧ contains text "tasks")
  ∧
  (∃ text s',
     CIRunner.setup_test_environment Demo.env Faulty.flipped Demo.kw Demo.s0
     = (Raise (AttributeError text), s')
     ∧ trace s'
       = trace Demo.s0 ++ [(super_setup_test_environment Demo.kw, None)])
  ∧
  (∃ text s',
     CIRunner.teardown_test_environment Demo.env Faulty.flipped Demo.kw
       Demo.s0
     = (Raise (AttributeError text), s')
     ∧ trace s'
       = trace Demo.s0 ++ [(super_teardown_test_environment Demo.kw, None)]).
Proof.
  destruct (flag_without_task_list_raises Demo.env Faulty.flipped Demo.suite
              Demo.kw Demo.s0 eq_refl eq_refl)
    as (Hrun & Hsetup & Hteardown).
  split; [exact Hrun|]. split.
  - apply (Hsetup 0%nat). reflexivity.
  - apply (Hteardown 0%nat). reflexivity.
Defined.

Lemma lifecycle_makes_only_expected_calls_witness :
  let ts := [Demo.lint; Demo.broken; Demo.cov] in
  calls_within
    (λ c, c = super_setup_test_environment Demo.kw
          ∨ hook_call_of SetupEnv ts [] Demo.kw c)
    (CIRunner.setup_test_environment Demo.env (Demo.extended ts) Demo.kw)
  ∧ calls_within
      (λ c, hook_call_of BeforeSuite ts [Demo.suite] Demo.kw c
            ∨ c = text_test_runner_run (xml_runner (Demo.extended ts))
                    Demo.suite
            ∨ (∃ result, c = dump_xml result (Some "reports"))
            ∨ hook_call_of AfterSuite ts [Demo.suite] Demo.kw c)
      (CIRunner.run_suite Demo.env (Demo.extended ts) Demo.suite Demo.kw)
  ∧ calls_within
      (λ c, c = super_teardown_test_environment Demo.kw
            ∨ hook_call_of TeardownEnv ts [] Demo.kw c)
      (CIRunner.teardown_test_environment Demo.env (Demo.extended ts) Demo.kw).
Proof.
  intros ts.
  apply (lifecycle_makes_only_expected_calls Demo.env (Demo.extended ts) ts
           (Some "reports") Demo.suite Demo.kw eq_refl eq_refl eq_refl).
Defined.

Lemma lifecycle_raises_only_what_a_call_raised_witness :
  let self := Demo.extended [Demo.lint; Demo.broken; Demo.cov] in
  transparent (CIRunner.setup_test_environment Faulty.env self Demo.kw)
  ∧ transparent (CIRunner.run_suite Faulty.env self Demo.suite Demo.kw)
  ∧ transparent (CIRunner.teardown_test_environment Faulty.env self Demo.kw).
Proof.
  intros self.
  apply (lifecycle_raises_only_what_a_call_raised Faulty.env true
           (Some "reports") 3 self Demo.suite Demo.kw).
  split; [reflexivity|]. split; [reflexivity|].
  exists [Demo.lint; Demo.broken; Demo.cov]. split; reflexivity.
Defined.

(** * Where the code differs from the specification, continued *)

(** C6 has every module that cannot be imported end in a configuration
    error.  The code catches ImportError only (line 23).  With the
    descriptor [tasks.syntax.Task], whose module raises a SyntaxError when
    imported, get_tasks raises that SyntaxError; with the descriptor [.X],
    whose module name is empty, it raises the ValueError of the import
    machinery.  Neither is an ImproperlyConfigured, and no message with
    the module name is produced. *)
Lemma unimportable_module_without_configuration_error :
  (get_tasks Faulty.env ["tasks.lint.LintTask"; "tasks.syntax.Task"] Demo.s0
   = (Raise Faulty.syntax_error,
      {| world := 0%nat;
         trace := [ (import_module "tasks.lint", None);
                    (import_module "tasks.syntax", Some Faulty.syntax_error) ];
         reads := [] |})
   ∧ ¬ ∃ text s',
         get_tasks Faulty.env ["tasks.lint.LintTask"; "tasks.syntax.Task"]
           Demo.s0
         = (Raise (ImproperlyConfigured text), s'))
  ∧
  (get_tasks Strict.env [".X"] Demo.s0
   = (Raise Strict.empty_name,
      {| world := 0%nat;
         trace := [(import_module EmptyString, Some Strict.empty_name)];
         reads := [] |})
   ∧ ¬ ∃ text s',
         get_tasks Strict.env [".X"] Demo.s0
         = (Raise (ImproperlyConfigured text), s')).
Proof.
  split; (split; [vm_compute; reflexivity|]);
    intros (text & s' & H); vm_compute in H; discriminate.
Qed.
